(** * The [marker] directive of ngMap (src/directives/marker.js)

    A shallow embedding of [getMarker] and of the directive's [linkFunc],
    with the properties of their natural-language specification.

    JavaScript values are a tagged union; plain objects are association
    lists in insertion order; a Number is an IEEE 754 binary64 float.
    A [TypeError] raised by a property read on [null] or [undefined] is
    a [Throw] result, threaded through a small exception monad. *)

From Stdlib Require Import String Ascii List Bool Arith Lia Floats DecimalString.
Import ListNotations.
Open Scope string_scope.
Set Warnings "-register-all,-inexact-float".

(* ================================================================== *)
(** * Values *)

Inductive value : Type :=
| VUndefined
| VNull
| VBool (b : bool)
| VNum (n : float)
| VStr (s : string)
| VArr (elems : list value)
| VObj (props : list (string * value))
| VLatLng (lat lng : float)          (* new google.maps.LatLng(lat, lng) *)
| VPoint (x y : value)               (* new google.maps.Point(x, y) *)
| VSize (width height : value).      (* new google.maps.Size(width, height) *)

(** A plain object: its own enumerable properties, oldest first. *)
Definition obj : Type := list (string * value).

(** Event callbacks are functions of the page's scope; only their
    identity matters here. *)
Definition handler : Type := nat.

(* ================================================================== *)
(** * Exceptions *)

Inductive exn : Type := TypeError.

Inductive result (A : Type) : Type :=
| Normal (a : A)
| Throw (e : exn).
Arguments Normal {A} a.
Arguments Throw {A} e.

Definition bind {A B : Type} (r : result A) (k : A -> result B) : result B :=
  match r with
  | Normal a => k a
  | Throw e => Throw e
  end.

Notation "x <- r ;; k" := (bind r (fun x => k))
  (at level 61, r at next level, right associativity).

Definition completes {A : Type} (r : result A) : bool :=
  match r with Normal _ => true | Throw _ => false end.

(* ================================================================== *)
(** * Own properties *)

Fixpoint lookup (o : obj) (k : string) : option value :=
  match o with
  | [] => None
  | (k', v) :: rest => if String.eqb k' k then Some v else lookup rest k
  end.

(** [o[k]] on a plain object, for a name that [Object.prototype] does
    not define. *)
Definition get_own (o : obj) (k : string) : value :=
  match lookup o k with
  | Some v => v
  | None => VUndefined
  end.

Definition has_key (o : obj) (k : string) : bool :=
  match lookup o k with
  | Some _ => true
  | None => false
  end.

(** [o[k] = v]: an existing property keeps its place, a new one goes last. *)
Fixpoint set_prop (o : obj) (k : string) (v : value) : obj :=
  match o with
  | [] => [(k, v)]
  | (k', v') :: rest =>
      if String.eqb k' k then (k', v) :: rest else (k', v') :: set_prop rest k v
  end.

(** The names a [for (key in o)] loop visits, each one once, in the
    order they were added. The loop visits names that are array indices
    before the others: the order given here is the loop's for names
    that are no indices, and nothing but the order depends on it. *)
Definition own_keys {A : Type} (o : list (string * A)) : list string :=
  nodup string_dec (map fst o).

(* ================================================================== *)
(** * Operators of the language *)

Definition nullish (v : value) : bool :=
  match v with
  | VUndefined | VNull => true
  | _ => false
  end.

(** ToBoolean. *)
Definition truthy (v : value) : bool :=
  match v with
  | VUndefined | VNull => false
  | VBool b => b
  | VNum n => negb (PrimFloat.eqb n 0 || PrimFloat.is_nan n)
  | VStr s => negb (String.eqb s "")
  | _ => true
  end.

(** [a || b]. *)
Definition js_or (a b : value) : value := if truthy a then a else b.

(** [typeof v === "undefined"]. *)
Definition typeof_undefined (v : value) : bool :=
  match v with
  | VUndefined => true
  | _ => false
  end.

(** [v instanceof Object]. *)
Definition instanceof_Object (v : value) : bool :=
  match v with
  | VArr _ | VObj _ | VLatLng _ _ | VPoint _ _ | VSize _ _ => true
  | _ => false
  end.

(** [v instanceof google.maps.LatLng]. *)
Definition instanceof_LatLng (v : value) : bool :=
  match v with
  | VLatLng _ _ => true
  | _ => false
  end.

Definition index_key (i : nat) : string :=
  NilEmpty.string_of_uint (Nat.to_uint i).

Fixpoint char_at (s : string) (i : nat) : option ascii :=
  match s, i with
  | EmptyString, _ => None
  | String c _, O => Some c
  | String _ rest, S j => char_at rest j
  end.

(** [v[i]] for an index [i]. A string is read as a sequence of 8-bit
    characters. *)
Definition get_index (v : value) (i : nat) : result value :=
  match v with
  | VUndefined | VNull => Throw TypeError
  | VArr elems => Normal (nth i elems VUndefined)
  | VStr s =>
      Normal (match char_at s i with
              | Some c => VStr (String c EmptyString)
              | None => VUndefined
              end)
  | VObj props => Normal (get_own props (index_key i))
  | _ => Normal VUndefined
  end.

(** [v.k] for the property names this directive reads ([path], [text],
    [color], [fillColor], ...): none of them is defined by a built-in
    prototype, so only own properties answer. *)
Definition get_field (v : value) (k : string) : result value :=
  match v with
  | VUndefined | VNull => Throw TypeError
  | VObj props => Normal (get_own props k)
  | VPoint x y =>
      Normal (if String.eqb k "x" then x else if String.eqb k "y" then y else VUndefined)
  | VSize w h =>
      Normal (if String.eqb k "width" then w
              else if String.eqb k "height" then h else VUndefined)
  | _ => Normal VUndefined
  end.

(** The test of [/^[A-Z_]+$/]. *)
Definition upper_or_underscore (c : ascii) : bool :=
  let n := nat_of_ascii c in
  (((65 <=? n) && (n <=? 90)) || (n =? 95))%nat.

Fixpoint all_chars (p : ascii -> bool) (s : string) : bool :=
  match s with
  | EmptyString => true
  | String c rest => p c && all_chars p rest
  end.

Definition matches_symbol_name (s : string) : bool :=
  match s with
  | EmptyString => false
  | _ => all_chars upper_or_underscore s
  end.

(* ================================================================== *)
(** * The marker factory *)

(** A live [google.maps.Marker]: the SDK's identity of the object, the
    values its constructor took over from the options ([marker.zIndex],
    [marker.icon], [marker.position], ...) and the listeners added with
    [google.maps.event.addListener]. *)
Record Marker : Type := {
  id : nat;
  values : obj;
  listeners : list (string * handler)
}.

Definition new_Marker (fresh : nat) (options : obj) : Marker :=
  {| id := fresh; values := options; listeners := [] |}.

Definition addListener (m : Marker) (eventName : string) (h : handler) : Marker :=
  {| id := id m; values := values m; listeners := (listeners m ++ [(eventName, h)])%list |}.

(** [marker.setPosition(latlng)]. *)
Definition setPosition (m : Marker) (latlng : value) : Marker :=
  {| id := id m; values := set_prop (values m) "position" latlng;
     listeners := listeners m |}.

Fixpoint lookup_handler (events : list (string * handler)) (k : string) : option handler :=
  match events with
  | [] => None
  | (k', h) :: rest => if String.eqb k' k then Some h else lookup_handler rest k
  end.

Definition is_point_key (key : string) : bool :=
  String.eqb key "anchor" || String.eqb key "origin".

Definition is_size_key (key : string) : bool :=
  String.eqb key "size" || String.eqb key "scaledSize".

Definition coerced_key (key : string) : bool := is_point_key key || is_size_key key.

(** The enumeration as the SDK publishes it, and a stand-in for the
    engine's rendering of numbers, for the examples. *)
Definition SymbolPath_enum : obj :=
  [("CIRCLE", VNum 0); ("FORWARD_CLOSED_ARROW", VNum 1);
   ("FORWARD_OPEN_ARROW", VNum 2); ("BACKWARD_CLOSED_ARROW", VNum 3);
   ("BACKWARD_OPEN_ARROW", VNum 4)].

Definition render_number (n : float) : string :=
  if PrimFloat.is_nan n then "NaN" else if PrimFloat.eqb n 0 then "0" else "1".

(** A stand-in for the projection of a map, for the examples: every
    coordinate goes to the pixel (0,0). *)
Definition origin_pixel : option (value -> value) :=
  Some (fun position => VPoint (VNum 0) (VNum 0)).

Section Factory.

(** The SDK's enumeration [google.maps.SymbolPath] and the engine's
    rendering of a Number as a string are not part of this repository. *)
Variable SymbolPath : obj.
Variable Number_toString : float -> string.

(** [""+v]. A plain object answers through [Object.prototype.toString]
    unless an own (data) property [toString] hides it; an array joins
    its elements with commas; the SDK's values print in parentheses. *)
Fixpoint to_string (v : value) : result string :=
  match v with
  | VUndefined => Normal "undefined"
  | VNull => Normal "null"
  | VBool b => Normal (if b then "true" else "false")
  | VNum n => Normal (Number_toString n)
  | VStr s => Normal s
  | VArr elems =>
      (fix join (l : list value) : result string :=
         match l with
         | [] => Normal ""
         | e :: rest =>
             s <- (if nullish e then Normal "" else to_string e) ;;
             match rest with
             | [] => Normal s
             | _ => r <- join rest ;; Normal (s ++ "," ++ r)
             end
         end) elems
  | VObj props => if has_key props "toString" then Throw TypeError
                  else Normal "[object Object]"
  | VLatLng lat lng =>
      Normal ("(" ++ Number_toString lat ++ ", " ++ Number_toString lng ++ ")")
  | VPoint a b | VSize a b =>
      sa <- to_string a ;; sb <- to_string b ;;
      Normal ("(" ++ sa ++ ", " ++ sb ++ ")")
  end.

(** Lines 48-50: the named symbol path. *)
Definition symbol_path (icon : obj) : result obj :=
  s <- to_string (get_own icon "path") ;;
  Normal (if matches_symbol_name s
          then set_prop icon "path" (get_own SymbolPath s)
          else icon).

(** Lines 52-59, the body of the loop over the icon's keys. The call
    [options.icon.hasOwnProperty(key)] reaches the built-in method, which
    answers [true] for a key of the loop, unless the icon has a property
    of that name: it is data, and calling it raises. *)
Definition coerce_icon_field (icon : obj) (key : string) : result obj :=
  if has_key icon "hasOwnProperty" then Throw TypeError
  else
    let arr := get_own icon key in
    if is_point_key key then
      a0 <- get_index arr 0 ;; a1 <- get_index arr 1 ;;
      Normal (set_prop icon key (VPoint a0 a1))
    else if is_size_key key then
      a0 <- get_index arr 0 ;; a1 <- get_index arr 1 ;;
      Normal (set_prop icon key (VSize a0 a1))
    else Normal icon.

Fixpoint for_in (keys : list string) (icon : obj) : result obj :=
  match keys with
  | [] => Normal icon
  | key :: rest => icon' <- coerce_icon_field icon key ;; for_in rest icon'
  end.

(** Lines 47-61. The icon object is shared with the options: writing
    into it is writing the [icon] of the options. An icon that is an
    array or one of the SDK's values has no [path] and none of the four
    keys, and goes through the loop untouched. *)
Definition normalize_icon (options : obj) : result obj :=
  if instanceof_Object (get_own options "icon") then
    match get_own options "icon" with
    | VObj icon =>
        icon1 <- symbol_path icon ;;
        icon2 <- for_in (own_keys icon1) icon1 ;;
        Normal (set_prop options "icon" (VObj icon2))
    | _ => Normal options
    end
  else Normal options.

(** Lines 62-64. *)
Definition default_position (options : obj) : obj :=
  if instanceof_LatLng (get_own options "position") then options
  else set_prop options "position" (VLatLng 0 0).

(** Lines 65-68. *)
Definition bridge_zindex (options : obj) : obj :=
  if typeof_undefined (get_own options "zIndex")
     && typeof_undefined (get_own options "zIndex")
     && negb (typeof_undefined (get_own options "zindex"))
  then set_prop options "zIndex" (get_own options "zindex")
  else options.

(** Lines 77-81: every name of the events mapping but the empty one,
    in the order of the mapping. *)
Fixpoint add_listeners (events : list (string * handler)) (names : list string)
    (m : Marker) : Marker :=
  match names with
  | [] => m
  | eventName :: rest =>
      let m' := match String.eqb eventName "", lookup_handler events eventName with
                | false, Some h => addListener m eventName h
                | _, _ => m
                end in
      add_listeners events rest m'
  end.

(** [getMarker(options, events)]: the options as the function leaves
    them and the marker it returns. [fresh] is the identity the SDK
    gives the new object. The [console.log] of line 75 changes nothing
    and is left out. *)
Definition getMarker (fresh : nat) (options : obj) (events : list (string * handler))
    : result (obj * Marker) :=
  options1 <- normalize_icon options ;;
  let options2 := default_position options1 in
  let options3 := bridge_zindex options2 in
  let marker := new_Marker fresh options3 in
  Normal (options3, add_listeners events (own_keys events) marker).


(* ================================================================== *)
(** * The directive *)

(** What the directive asks of its collaborators, in the order it asks:
    the map controller's operations, and the evaluation
    [$parse(expression)(scope)] of the geo-callback. *)
Inductive effect : Type :=
| addObject (group : string) (object : nat)
| deleteObject (group : string) (object : nat)
| getGeoLocation (address : value)
| zoomToIncludeMarkers
| observeAttrSetObj (object : nat)
| evaluate (expression : value).

(** [marker.MarkerLabel]: the values given to [setValues], the marker
    they name, and the marker its [position] is bound to by [bindTo]. *)
Record MarkerLabel : Type := {
  label_values : obj;
  label_marker : nat;
  position_bound_to : nat
}.

(** One linked [<marker>] element. [pending] holds the address of a
    geocoding request whose promise is not settled yet; [on_destroy] is
    what the handlers bound to [$destroy] will ask for. *)
Record directive : Type := {
  marker : Marker;
  label : option MarkerLabel;
  trace : list effect;
  pending : option value;
  geoCallback : value;
  on_destroy : list effect
}.

(** Lines 103-115. *)
Definition new_MarkerLabel (customlabel : value) (m : Marker) : result MarkerLabel :=
  text <- get_field customlabel "text" ;;
  color <- get_field customlabel "color" ;;
  fillColor <- get_field customlabel "fillColor" ;;
  fillOpacity <- get_field customlabel "fillOpacity" ;;
  strokeColor <- get_field customlabel "strokeColor" ;;
  strokeWeight <- get_field customlabel "strokeWeight" ;;
  iconFill <- get_field (get_own (values m) "icon") "fillColor" ;;
  Normal {| label_values :=
              [("map", get_own (values m) "map");
               ("text", text);
               ("color", js_or color (VStr "#000000"));
               ("fillColor", js_or fillColor (VStr "#ffffff"));
               ("fillOpacity", js_or fillOpacity (VNum 1));
               ("strokeColor", js_or strokeColor (VStr "#ffffff"));
               ("strokeWeight", js_or strokeWeight (VNum 1));
               ("zIndex", js_or (get_own (values m) "zIndex") (VStr "auto"));
               ("backgroundColor", js_or iconFill (VStr "transparent"))];
            label_marker := id m;
            position_bound_to := id m |}.

(** Lines 94-97. *)
Definition address_of (markerOptions : obj) : value :=
  if instanceof_LatLng (get_own markerOptions "position") then VUndefined
  else get_own markerOptions "position".

(** [linkFunc], from the options and events the attribute parser
    returned (lines 89-92) and the element's [geo-callback] attribute.
    What the map controller does with the marker it is handed is its
    own business; the calls are recorded in order. *)
Definition linkFunc (fresh : nat) (markerOptions : obj)
    (markerEvents : list (string * handler)) (geoCallbackAttr : value)
    : result directive :=
  let address := address_of markerOptions in
  r <- getMarker fresh markerOptions markerEvents ;;
  let '(markerOptions, m) := r in
  let t1 := [addObject "markers" (id m)] in
  lbl <- (if typeof_undefined (get_own markerOptions "customlabel") then Normal None
          else l <- new_MarkerLabel (get_own markerOptions "customlabel") m ;;
               Normal (Some l)) ;;
  let t2 := if truthy address then (t1 ++ [getGeoLocation address])%list else t1 in
  Normal {| marker := m;
            label := lbl;
            trace := (t2 ++ [observeAttrSetObj (id m)])%list;
            pending := if truthy address then Some address else None;
            geoCallback := geoCallbackAttr;
            on_destroy := [deleteObject "markers" (id m)] |}.

(** The promise of [getGeoLocation] is fulfilled with a coordinate: the
    callback of lines 119-125 runs, once. *)
Definition resolve (lat lng : float) (d : directive) : directive :=
  match pending d with
  | None => d
  | Some _ =>
      {| marker := setPosition (marker d) (VLatLng lat lng);
         label := label d;
         trace := (trace d ++ [zoomToIncludeMarkers]
                     ++ (if truthy (geoCallback d) then [evaluate (geoCallback d)] else []))%list;
         pending := None;
         geoCallback := geoCallback d;
         on_destroy := on_destroy d |}
  end.

(** The element is destroyed: the handlers of line 132 run. *)
Definition destroy (d : directive) : directive :=
  {| marker := marker d;
     label := label d;
     trace := (trace d ++ on_destroy d)%list;
     pending := pending d;
     geoCallback := geoCallback d;
     on_destroy := [] |}.


(** What happens to a linked element afterwards, in any order. *)
Inductive occurrence : Type :=
| resolved (lat lng : float)
| destroyed.

Definition step (d : directive) (o : occurrence) : directive :=
  match o with
  | resolved lat lng => resolve lat lng d
  | destroyed => destroy d
  end.

Definition run (os : list occurrence) (d : directive) : directive :=
  fold_left step os d.

Definition is_resolved (o : occurrence) : bool :=
  match o with resolved _ _ => true | destroyed => false end.

(** Which inputs [getMarker] and [linkFunc] accept without raising. *)
Definition field_ok (icon : obj) (key : string) : bool :=
  negb (has_key icon key && nullish (get_own icon key)).

Definition icon_accepted (icon : value) : bool :=
  match icon with
  | VObj props =>
      negb (has_key props "hasOwnProperty")
      && completes (to_string (get_own props "path"))
      && field_ok props "anchor" && field_ok props "origin"
      && field_ok props "size" && field_ok props "scaledSize"
  | _ => true
  end.

Definition label_accepted (options : obj) : bool :=
  typeof_undefined (get_own options "customlabel")
  || (negb (nullish (get_own options "customlabel"))
      && negb (nullish (get_own options "icon"))).

Definition link_accepted (options : obj) : bool :=
  icon_accepted (get_own options "icon") && label_accepted options.

Definition is_getGeoLocation (e : effect) : bool :=
  match e with getGeoLocation _ => true | _ => false end.

Definition is_deleteObject (e : effect) : bool :=
  match e with deleteObject _ _ => true | _ => false end.

Definition is_evaluate (e : effect) : bool :=
  match e with evaluate _ => true | _ => false end.

(** The handlers bound to [$destroy] ask for deletions only. *)
Definition only_deletions (d : directive) : Prop :=
  Forall (fun e => is_deleteObject e = true) (on_destroy d).

(** The shape the specification expects of an icon sub-field. *)
Definition numeric_pair (v : value) : bool :=
  match v with
  | VArr [VNum _; VNum _] => true
  | _ => false
  end.

(* ================================================================== *)
(** * The label overlay *)

(** The projection of the map an overlay is on belongs to the SDK:
    [this.getProjection()] answers [undefined] ([None]) for an overlay
    that is on no map, and an object with [fromLatLngToDivPixel]
    otherwise. *)
Definition projection : Type := option (value -> value).

(** What the label's container holds: the [span] of lines 147-149, or
    the markup last assigned to its [innerHTML]. *)
Inductive content : Type :=
| span (className : string)
| markup (text : string).

(** The container [this.div]: the pane it is a child of, if any, and
    the values assigned to the properties of [div.style], as assigned. *)
Record Div : Type := {
  className : string;
  holds : content;
  parentNode : option string;
  style : obj
}.

(** A [MarkerLabel] as an overlay: the values it was constructed with,
    its container, its field [this.listeners] ([None] while it is
    [undefined]), and the listeners the SDK holds on it, each under the
    handle that [addListener] returned. *)
Record Overlay : Type := {
  settings : MarkerLabel;
  div : Div;
  this_listeners : option (list nat);
  registered : list (nat * string);
  next_listener : nat
}.

(** Lines 140-150. *)
Definition construct (l : MarkerLabel) : Overlay :=
  {| settings := l;
     div := {| className := "marker-label"; holds := span "marker-icon";
               parentNode := None; style := [] |};
     this_listeners := None;
     registered := [];
     next_listener := 0 |}.

(** [google.maps.event.trigger(marker, eventName)]: the listeners of
    that name, in the order they were added. *)
Definition trigger (m : Marker) (eventName : string) : list handler :=
  map snd (filter (fun p => String.eqb (fst p) eventName) (listeners m)).

(** Lines 152-155: a click on the label of the element, as the handlers
    that run. *)
Definition click_label (d : directive) : list handler :=
  trigger (marker d) "click".

(** Lines 162-170. *)
Definition onAdd (o : Overlay) : Overlay :=
  let n := next_listener o in
  {| settings := settings o;
     div := {| className := className (div o); holds := holds (div o);
               parentNode := Some "overlayImage"; style := style (div o) |};
     this_listeners := Some [n; S n; S (S n)];
     registered := (registered o ++ [(n, "position_changed"); (S n, "text_changed");
                                     (S (S n), "zindex_changed")])%list;
     next_listener := S (S (S n)) |}.

(** [google.maps.event.removeListener]. *)
Definition removeListener (reg : list (nat * string)) (h : nat) : list (nat * string) :=
  filter (fun p => negb (Nat.eqb (fst p) h)) reg.

(** Lines 173-178. [this.div.parentNode] is [null] for a container that
    is in no pane, and [this.listeners] is [undefined] before the first
    [onAdd]: reading a property of either raises. *)
Definition onRemove (o : Overlay) : result Overlay :=
  match parentNode (div o) with
  | None => Throw TypeError
  | Some _ =>
      match this_listeners o with
      | None => Throw TypeError
      | Some hs =>
          Normal {| settings := settings o;
                    div := {| className := className (div o); holds := holds (div o);
                              parentNode := None; style := style (div o) |};
                    this_listeners := Some hs;
                    registered := fold_left removeListener hs (registered o);
                    next_listener := next_listener o |}
      end
  end.

(** [v.toString()]. *)
Definition method_toString (v : value) : result string :=
  if nullish v then Throw TypeError else to_string v.

Definition assign (st : obj) (kv : string * value) : obj :=
  set_prop st (fst kv) (snd kv).

(** Lines 181-197. [position] is what [this.get('position')] answers:
    the position of the marker the label is bound to. *)
Definition draw (proj : projection) (position : value) (o : Overlay)
    : result Overlay :=
  let get := get_own (label_values (settings o)) in
  fromLatLngToDivPixel <- match proj with
                          | Some f => Normal f
                          | None => Throw TypeError
                          end ;;
  let pixel := fromLatLngToDivPixel position in
  x <- get_field pixel "x" ;;
  left <- to_string x ;;
  y <- get_field pixel "y" ;;
  top <- to_string y ;;
  text <- method_toString (get "text") ;;
  Normal {| settings := settings o;
            div := {| className := className (div o);
                      holds := markup text;
                      parentNode := parentNode (div o);
                      style := fold_left assign
                                 [("left", VStr (left ++ "px"));
                                  ("top", VStr (top ++ "px"));
                                  ("display", VStr "block");
                                  ("z-index", get "zIndex");
                                  ("background-color", get "fillColor");
                                  ("color", get "color");
                                  ("border-color", get "color");
                                  ("opacity", get "fillOpacity");
                                  ("stroke", get "strokeColor");
                                  ("stroke-width", get "strokeWeight")]
                                 (style (div o)) |};
            this_listeners := this_listeners o;
            registered := registered o;
            next_listener := next_listener o |}.

(** The label of a linked element, drawn: [bindTo] makes its position
    the marker's. *)
Definition draw_label (proj : projection) (d : directive) (o : Overlay)
    : result Overlay :=
  draw proj (get_own (values (marker d)) "position") o.

(** What the overlay framework and the listeners of [onAdd] call. *)
Inductive overlay_call : Type :=
| call_onAdd
| call_onRemove
| call_draw (proj : projection) (position : value).

Definition overlay_step (o : Overlay) (c : overlay_call) : result Overlay :=
  match c with
  | call_onAdd => Normal (onAdd o)
  | call_onRemove => onRemove o
  | call_draw proj position => draw proj position o
  end.

Fixpoint overlay_run (cs : list overlay_call) (o : Overlay) : result Overlay :=
  match cs with
  | [] => Normal o
  | c :: rest => o' <- overlay_step o c ;; overlay_run rest o'
  end.

Definition is_onAdd (c : overlay_call) : bool :=
  match c with call_onAdd => true | _ => false end.

Definition is_onRemove (c : overlay_call) : bool :=
  match c with call_onRemove => true | _ => false end.

Definition is_addObject (e : effect) : bool :=
  match e with addObject _ _ => true | _ => false end.

Definition is_observeAttrSetObj (e : effect) : bool :=
  match e with observeAttrSetObj _ => true | _ => false end.

(** What one turn of the loop of lines 77-81 adds for an event name. *)
Definition registration (events : list (string * handler)) (eventName : string)
    : list (string * handler) :=
  match String.eqb eventName "", lookup_handler events eventName with
  | false, Some h => [(eventName, h)]
  | _, _ => []
  end.

Definition named (name : string) (p : string * handler) : bool :=
  String.eqb (fst p) name.

Definition is_plain_object (v : value) : bool :=
  match v with VObj _ => true | _ => false end.

(** The three listeners of one [onAdd], under the handles from [n] on. *)
Definition three_listeners (n : nat) : list (nat * string) :=
  [(n, "position_changed"); (S n, "text_changed"); (S (S n), "zindex_changed")].

(** What every overlay that was constructed and then called keeps: the
    handles given out are below the next one, and a container that is
    in a pane has the listeners of the last [onAdd] in [this.listeners]
    and at the end of the SDK's list. *)
Definition well_kept (o : Overlay) : Prop :=
  Forall (fun p => fst p < next_listener o) (registered o) /\
  (parentNode (div o) <> None ->
   exists older n,
     registered o = (older ++ three_listeners n)%list /\
     next_listener o = S (S (S n)) /\
     this_listeners o = Some [n; S n; S (S n)] /\
     Forall (fun p => fst p < n) older).

(** The style properties [draw] writes. *)
Definition drawn_properties : list string :=
  ["left"; "top"; "display"; "z-index"; "background-color"; "color";
   "border-color"; "opacity"; "stroke"; "stroke-width"].

(** A name that starts with no digit is no array index. *)
Definition starts_with_digit (k : string) : bool :=
  match k with
  | EmptyString => false
  | String c _ => let n := nat_of_ascii c in ((48 <=? n) && (n <=? 57))%nat
  end.

(** [linkFunc] once more, with what it has done when the label makes it
    raise (lines 103-114): the marker is constructed and added, and
    nothing of lines 115-134 has run, so the element has no label, no
    geocoding request, no observers and no [$destroy] handler. When the
    factory raises there is no marker and nothing was asked. *)
Record linking : Type := {
  element : directive;
  raised : option exn
}.

Definition link_outcome (fresh : nat) (markerOptions : obj)
    (markerEvents : list (string * handler)) (geoCallbackAttr : value)
    : result linking :=
  let address := address_of markerOptions in
  r <- getMarker fresh markerOptions markerEvents ;;
  let '(markerOptions, m) := r in
  let t1 := [addObject "markers" (id m)] in
  match (if typeof_undefined (get_own markerOptions "customlabel") then Normal None
         else l <- new_MarkerLabel (get_own markerOptions "customlabel") m ;;
              Normal (Some l)) with
  | Throw e =>
      Normal {| element := {| marker := m;
                              label := None;
                              trace := t1;
                              pending := None;
                              geoCallback := geoCallbackAttr;
                              on_destroy := [] |};
                raised := Some e |}
  | Normal lbl =>
      let t2 := if truthy address then (t1 ++ [getGeoLocation address])%list else t1 in
      Normal {| element := {| marker := m;
                              label := lbl;
                              trace := (t2 ++ [observeAttrSetObj (id m)])%list;
                              pending := if truthy address then Some address else None;
                              geoCallback := geoCallbackAttr;
                              on_destroy := [deleteObject "markers" (id m)] |};
                raised := None |}
  end.

(* ================================================================== *)
(** * Own properties: reading after writing *)

Lemma lookup_set_same (o : obj) (k : string) (v : value) :
  lookup (set_prop o k v) k = Some v.
Proof.
  induction o as [|[k' v'] rest IH]; simpl.
  - now rewrite String.eqb_refl.
  - destruct (String.eqb k' k) eqn:E; simpl; rewrite E; auto.
Qed.

Lemma lookup_set_other (o : obj) (k k' : string) (v : value) :
  k <> k' -> lookup (set_prop o k v) k' = lookup o k'.
Proof.
  intros Hne. induction o as [|[k1 v1] rest IH]; simpl.
  - destruct (String.eqb_spec k k'); [contradiction | reflexivity].
  - destruct (String.eqb_spec k1 k) as [->|Hk]; simpl.
    + destruct (String.eqb_spec k k'); [contradiction | reflexivity].
    + now rewrite IH.
Qed.

Lemma get_own_set_same (o : obj) (k : string) (v : value) :
  get_own (set_prop o k v) k = v.
Proof. unfold get_own. now rewrite lookup_set_same. Qed.

Lemma get_own_set_other (o : obj) (k k' : string) (v : value) :
  k <> k' -> get_own (set_prop o k v) k' = get_own o k'.
Proof. intros H. unfold get_own. now rewrite lookup_set_other. Qed.

Lemma get_own_cons (k' k : string) (v : value) (o : obj) :
  get_own ((k', v) :: o) k = if String.eqb k' k then v else get_own o k.
Proof. unfold get_own. simpl. now destruct (String.eqb k' k). Qed.

(** Reads a named property off a literal object. *)
Ltac read_own :=
  repeat (rewrite get_own_cons; simpl (String.eqb _ _); cbv iota).

Lemma has_key_set_other (o : obj) (k k' : string) (v : value) :
  k <> k' -> has_key (set_prop o k v) k' = has_key o k'.
Proof. intros H. unfold has_key. now rewrite lookup_set_other. Qed.

Lemma has_key_set_mono (o : obj) (k k' : string) (v : value) :
  has_key o k' = true -> has_key (set_prop o k v) k' = true.
Proof.
  intros H. destruct (string_dec k k') as [->|Hne].
  - unfold has_key. now rewrite lookup_set_same.
  - now rewrite has_key_set_other.
Qed.

Lemma lookup_In_keys (o : obj) (k : string) :
  In k (map fst o) <-> has_key o k = true.
Proof.
  unfold has_key. induction o as [|[k' v'] rest IH]; simpl.
  - split; [tauto | discriminate].
  - destruct (String.eqb_spec k' k) as [->|Hne].
    + split; auto.
    + rewrite <- IH. split; [intros [E|H]; [contradiction | exact H] | auto].
Qed.

Lemma own_keys_In (o : obj) (k : string) :
  In k (own_keys o) <-> has_key o k = true.
Proof. unfold own_keys. rewrite nodup_In. apply lookup_In_keys. Qed.

Lemma own_keys_NoDup {A : Type} (o : list (string * A)) : NoDup (own_keys o).
Proof. apply NoDup_nodup. Qed.

(* ================================================================== *)
(** * The loop over the icon's keys *)

Lemma get_index_completes (v : value) (i : nat) :
  nullish v = false -> exists a, get_index v i = Normal a.
Proof. destruct v; simpl; intros H; try discriminate; eauto. Qed.

Lemma coerced_key_not_hasOwnProperty (key : string) :
  coerced_key key = true -> key <> "hasOwnProperty".
Proof. intros H ->. discriminate H. Qed.

Lemma coerced_key_not_path (key : string) :
  coerced_key key = true -> key <> "path".
Proof. intros H ->. discriminate H. Qed.

(** One turn of the loop writes the key it visits and nothing else. *)
Lemma coerce_icon_field_other (icon icon' : obj) (key k : string) :
  coerce_icon_field icon key = Normal icon' ->
  k <> key -> lookup icon' k = lookup icon k.
Proof.
  unfold coerce_icon_field. intros H Hne.
  destruct (has_key icon "hasOwnProperty"); [discriminate|].
  destruct (is_point_key key).
  - destruct (get_index (get_own icon key) 0); [|discriminate].
    destruct (get_index (get_own icon key) 1); [|discriminate].
    simpl in H. injection H as <-. apply lookup_set_other. congruence.
  - destruct (is_size_key key).
    + destruct (get_index (get_own icon key) 0); [|discriminate].
      destruct (get_index (get_own icon key) 1); [|discriminate].
      simpl in H. injection H as <-. apply lookup_set_other. congruence.
    + now injection H as <-.
Qed.

Lemma coerce_icon_field_plain (icon icon' : obj) (key : string) :
  coerce_icon_field icon key = Normal icon' ->
  coerced_key key = false -> icon' = icon.
Proof.
  unfold coerce_icon_field, coerced_key. intros H Hc.
  apply orb_false_iff in Hc as [Ep Es]. rewrite Ep, Es in H.
  destruct (has_key icon "hasOwnProperty"); [discriminate|].
  now injection H as <-.
Qed.

Lemma coerce_icon_field_point (icon icon' : obj) (key : string) :
  coerce_icon_field icon key = Normal icon' ->
  is_point_key key = true ->
  exists a0 a1, get_index (get_own icon key) 0 = Normal a0 /\
                get_index (get_own icon key) 1 = Normal a1 /\
                lookup icon' key = Some (VPoint a0 a1).
Proof.
  unfold coerce_icon_field. intros H Hp. rewrite Hp in H.
  destruct (has_key icon "hasOwnProperty"); [discriminate|].
  destruct (get_index (get_own icon key) 0) as [a0|]; [|discriminate].
  destruct (get_index (get_own icon key) 1) as [a1|]; [|discriminate].
  simpl in H. injection H as <-. exists a0, a1.
  repeat split. apply lookup_set_same.
Qed.

Lemma coerce_icon_field_size (icon icon' : obj) (key : string) :
  coerce_icon_field icon key = Normal icon' ->
  is_size_key key = true ->
  exists a0 a1, get_index (get_own icon key) 0 = Normal a0 /\
                get_index (get_own icon key) 1 = Normal a1 /\
                lookup icon' key = Some (VSize a0 a1).
Proof.
  unfold coerce_icon_field. intros H Hs.
  assert (Hp : is_point_key key = false).
  { unfold is_point_key, is_size_key in *.
    apply orb_true_iff in Hs as [E|E]; apply String.eqb_eq in E; now subst. }
  rewrite Hp, Hs in H.
  destruct (has_key icon "hasOwnProperty"); [discriminate|].
  destruct (get_index (get_own icon key) 0) as [a0|]; [|discriminate].
  destruct (get_index (get_own icon key) 1) as [a1|]; [|discriminate].
  simpl in H. injection H as <-. exists a0, a1.
  repeat split. apply lookup_set_same.
Qed.

(** A key the loop does not visit, or visits without coercing, keeps
    its value. *)
Lemma for_in_untouched (keys : list string) (icon icon' : obj) (k : string) :
  for_in keys icon = Normal icon' ->
  ~ In k keys \/ coerced_key k = false ->
  lookup icon' k = lookup icon k.
Proof.
  revert icon. induction keys as [|key rest IH]; simpl; intros icon H Hk.
  - now injection H as <-.
  - destruct (coerce_icon_field icon key) as [icon1|] eqn:E; [|discriminate].
    simpl in H. rewrite (IH icon1 H).
    + destruct (string_dec k key) as [->|Hne].
      * destruct Hk as [Hk|Hk]; [exfalso; apply Hk; now left|].
        now rewrite (coerce_icon_field_plain _ _ _ E Hk).
      * now apply (coerce_icon_field_other _ _ _ _ E).
    + destruct Hk as [Hk|Hk]; [left; intros Hin; apply Hk; now right | now right].
Qed.

Lemma for_in_point (keys : list string) (icon icon' : obj) (k : string) :
  NoDup keys -> In k keys -> is_point_key k = true ->
  for_in keys icon = Normal icon' ->
  exists a0 a1, get_index (get_own icon k) 0 = Normal a0 /\
                get_index (get_own icon k) 1 = Normal a1 /\
                lookup icon' k = Some (VPoint a0 a1).
Proof.
  intros Hnd. revert icon.
  induction Hnd as [|key rest Hnotin Hnd IH]; intros icon Hin Hp H; [contradiction|].
  simpl in H.
  destruct (coerce_icon_field icon key) as [icon1|] eqn:E; [|discriminate].
  simpl in H. destruct Hin as [->|Hin].
  - destruct (coerce_icon_field_point _ _ _ E Hp) as (a0 & a1 & H0 & H1 & Hl).
    exists a0, a1. repeat split; auto.
    rewrite (for_in_untouched _ _ _ k H); auto.
  - assert (Hne : k <> key) by (intros ->; contradiction).
    destruct (IH icon1 Hin Hp H) as (a0 & a1 & H0 & H1 & Hl).
    unfold get_own in H0, H1.
    rewrite (coerce_icon_field_other _ _ _ _ E Hne) in H0, H1.
    exists a0, a1. repeat split; auto.
Qed.

Lemma for_in_size (keys : list string) (icon icon' : obj) (k : string) :
  NoDup keys -> In k keys -> is_size_key k = true ->
  for_in keys icon = Normal icon' ->
  exists a0 a1, get_index (get_own icon k) 0 = Normal a0 /\
                get_index (get_own icon k) 1 = Normal a1 /\
                lookup icon' k = Some (VSize a0 a1).
Proof.
  intros Hnd. revert icon.
  induction Hnd as [|key rest Hnotin Hnd IH]; intros icon Hin Hp H; [contradiction|].
  simpl in H.
  destruct (coerce_icon_field icon key) as [icon1|] eqn:E; [|discriminate].
  simpl in H. destruct Hin as [->|Hin].
  - destruct (coerce_icon_field_size _ _ _ E Hp) as (a0 & a1 & H0 & H1 & Hl).
    exists a0, a1. repeat split; auto.
    rewrite (for_in_untouched _ _ _ k H); auto.
  - assert (Hne : k <> key) by (intros ->; contradiction).
    destruct (IH icon1 Hin Hp H) as (a0 & a1 & H0 & H1 & Hl).
    unfold get_own in H0, H1.
    rewrite (coerce_icon_field_other _ _ _ _ E Hne) in H0, H1.
    exists a0, a1. repeat split; auto.
Qed.

(** The loop completes when no [hasOwnProperty] hides the built-in one
    and no coerced key it visits holds [null] or [undefined]. *)
Lemma for_in_completes (keys : list string) (icon : obj) :
  has_key icon "hasOwnProperty" = false ->
  (forall k, In k keys -> coerced_key k = true -> nullish (get_own icon k) = false) ->
  exists icon', for_in keys icon = Normal icon'.
Proof.
  revert icon. induction keys as [|key rest IH]; simpl; intros icon Hh Hk; eauto.
  assert (Hstep : exists icon1, coerce_icon_field icon key = Normal icon1 /\
            has_key icon1 "hasOwnProperty" = false /\
            forall k, nullish (get_own icon k) = false -> nullish (get_own icon1 k) = false).
  { unfold coerce_icon_field. rewrite Hh.
    destruct (coerced_key key) eqn:Ec.
    - destruct (get_index_completes (get_own icon key) 0 (Hk key (or_introl eq_refl) Ec)) as [a0 ->].
      destruct (get_index_completes (get_own icon key) 1 (Hk key (or_introl eq_refl) Ec)) as [a1 ->].
      pose proof (coerced_key_not_hasOwnProperty key Ec) as Hne.
      unfold coerced_key in Ec.
      destruct (is_point_key key); [|simpl in Ec; rewrite Ec]; simpl;
        eexists; (split; [reflexivity|]); (split; [now rewrite has_key_set_other|]);
        intros k Hn; (destruct (string_dec key k) as [->|Hd];
          [now rewrite get_own_set_same | now rewrite get_own_set_other]).
    - unfold coerced_key in Ec. apply orb_false_iff in Ec as [Ep Es].
      rewrite Ep, Es. exists icon. auto. }
  destruct Hstep as (icon1 & -> & Hh1 & Hmono). simpl.
  apply IH; auto.
Qed.

(* ================================================================== *)
(** * The icon, the position and the z-index *)

Lemma coerced_key_cases (key : string) :
  coerced_key key = true ->
  key = "anchor" \/ key = "origin" \/ key = "size" \/ key = "scaledSize".
Proof.
  unfold coerced_key, is_point_key, is_size_key. intros H.
  repeat (apply orb_true_iff in H as [H|H]);
    apply String.eqb_eq in H; subst; auto.
Qed.

Lemma symbol_path_spec (icon : obj) (s : string) :
  to_string (get_own icon "path") = Normal s ->
  symbol_path icon =
    Normal (if matches_symbol_name s
            then set_prop icon "path" (get_own SymbolPath s) else icon).
Proof. intros H. unfold symbol_path. now rewrite H. Qed.

Lemma symbol_path_other (icon icon1 : obj) (k : string) :
  symbol_path icon = Normal icon1 -> k <> "path" -> lookup icon1 k = lookup icon k.
Proof.
  unfold symbol_path. intros H Hne.
  destruct (to_string (get_own icon "path")) as [s|]; [|discriminate].
  simpl in H. injection H as <-.
  destruct (matches_symbol_name s); auto.
  apply lookup_set_other. congruence.
Qed.

Lemma field_ok_not_nullish (icon : obj) (key : string) :
  field_ok icon key = true -> has_key icon key = true ->
  nullish (get_own icon key) = false.
Proof.
  unfold field_ok. intros H Hk. rewrite Hk in H. simpl in H.
  now apply negb_true_iff in H.
Qed.

(** What [getMarker] does to an icon that is a plain object. *)
Lemma normalize_icon_object (options icon : obj) :
  get_own options "icon" = VObj icon ->
  icon_accepted (VObj icon) = true ->
  exists icon',
    normalize_icon options = Normal (set_prop options "icon" (VObj icon')) /\
    (forall s, get_own icon "path" = VStr s ->
       get_own icon' "path" =
         if matches_symbol_name s then get_own SymbolPath s else VStr s) /\
    (forall key v, is_point_key key = true -> lookup icon key = Some v ->
       exists a0 a1, get_index v 0 = Normal a0 /\ get_index v 1 = Normal a1 /\
                     lookup icon' key = Some (VPoint a0 a1)) /\
    (forall key v, is_size_key key = true -> lookup icon key = Some v ->
       exists a0 a1, get_index v 0 = Normal a0 /\ get_index v 1 = Normal a1 /\
                     lookup icon' key = Some (VSize a0 a1)) /\
    (forall key, coerced_key key = false -> key <> "path" ->
       lookup icon' key = lookup icon key).
Proof.
  intros Hicon Hacc. simpl in Hacc.
  repeat (apply andb_true_iff in Hacc as [Hacc ?]).
  apply negb_true_iff in Hacc.
  destruct (to_string (get_own icon "path")) as [s0|] eqn:Es; [|discriminate].
  pose proof (symbol_path_spec icon s0 Es) as Hsp.
  set (icon1 := if matches_symbol_name s0
                then set_prop icon "path" (get_own SymbolPath s0) else icon) in *.
  assert (Hother : forall k, k <> "path" -> lookup icon1 k = lookup icon k)
    by (intros k; apply symbol_path_other; exact Hsp).
  assert (Hkeys : forall k, k <> "path" -> has_key icon1 k = has_key icon k)
    by (intros k Hk; unfold has_key; now rewrite Hother).
  assert (Hget : forall k, k <> "path" -> get_own icon1 k = get_own icon k)
    by (intros k Hk; unfold get_own; now rewrite Hother).
  destruct (for_in_completes (own_keys icon1) icon1) as [icon' Hloop].
  { rewrite Hkeys; [exact Hacc | discriminate]. }
  { intros k Hin Hc. apply own_keys_In in Hin.
    pose proof (coerced_key_not_path k Hc) as Hnp.
    rewrite Hkeys in Hin by exact Hnp. rewrite Hget by exact Hnp.
    apply field_ok_not_nullish; auto.
    destruct (coerced_key_cases k Hc) as [ -> | [ -> | [ -> | -> ] ] ]; assumption. }
  exists icon'. split; [|split; [|split; [|split]]].
  - unfold normalize_icon. rewrite Hicon, Hsp. simpl. now rewrite Hloop.
  - intros s Hs. rewrite Hs in Es. simpl in Es. injection Es as <-.
    unfold get_own at 1.
    rewrite (for_in_untouched _ _ _ "path" Hloop) by (now right).
    subst icon1. destruct (matches_symbol_name s).
    + now rewrite lookup_set_same.
    + fold (get_own icon "path"). exact Hs.
  - intros key v Hp Hl.
    assert (Hc : coerced_key key = true) by (unfold coerced_key; now rewrite Hp).
    pose proof (coerced_key_not_path key Hc) as Hnp.
    assert (Hin : In key (own_keys icon1)).
    { apply own_keys_In. rewrite Hkeys by exact Hnp. unfold has_key. now rewrite Hl. }
    destruct (for_in_point _ _ _ key (own_keys_NoDup icon1) Hin Hp Hloop)
      as (a0 & a1 & Hi0 & Hi1 & Hl').
    rewrite Hget in Hi0, Hi1 by exact Hnp. unfold get_own in Hi0, Hi1.
    rewrite Hl in Hi0, Hi1. eauto.
  - intros key v Hp Hl.
    assert (Hc : coerced_key key = true)
      by (unfold coerced_key; rewrite Hp; apply orb_true_r).
    pose proof (coerced_key_not_path key Hc) as Hnp.
    assert (Hin : In key (own_keys icon1)).
    { apply own_keys_In. rewrite Hkeys by exact Hnp. unfold has_key. now rewrite Hl. }
    destruct (for_in_size _ _ _ key (own_keys_NoDup icon1) Hin Hp Hloop)
      as (a0 & a1 & Hi0 & Hi1 & Hl').
    rewrite Hget in Hi0, Hi1 by exact Hnp. unfold get_own in Hi0, Hi1.
    rewrite Hl in Hi0, Hi1. eauto.
  - intros key Hc Hnp.
    rewrite (for_in_untouched _ _ _ key Hloop) by (now right).
    now apply Hother.
Qed.

(** [getMarker] touches no option but [icon], and an icon is there
    afterwards exactly when one was given. *)
Lemma normalize_icon_completes (options : obj) :
  icon_accepted (get_own options "icon") = true ->
  exists options1,
    normalize_icon options = Normal options1 /\
    (forall k, k <> "icon" -> get_own options1 k = get_own options k) /\
    nullish (get_own options1 "icon") = nullish (get_own options "icon").
Proof.
  intros Hacc. destruct (get_own options "icon") as [ | | b | n | s | l | icon | a b | a b | a b ] eqn:E;
    try (exists options; unfold normalize_icon; rewrite E; now auto).
  destruct (normalize_icon_object options icon E Hacc) as (icon' & Hn & _).
  eexists. split; [exact Hn|]. split.
  - intros k Hk. apply get_own_set_other. congruence.
  - now rewrite get_own_set_same.
Qed.

Lemma add_listeners_values (events : list (string * handler)) (names : list string)
    (m : Marker) :
  values (add_listeners events names m) = values m /\
  id (add_listeners events names m) = id m.
Proof.
  revert m. induction names as [|n rest IH]; simpl; intros m; auto.
  destruct (String.eqb n ""), (lookup_handler events n);
    match goal with |- values (add_listeners _ _ ?x) = _ /\ _ =>
      destruct (IH x) as [-> ->] end; auto.
Qed.

Lemma getMarker_unfold (fresh : nat) (options options1 : obj)
    (events : list (string * handler)) :
  normalize_icon options = Normal options1 ->
  exists m, getMarker fresh options events
              = Normal (bridge_zindex (default_position options1), m) /\
            values m = bridge_zindex (default_position options1) /\
            id m = fresh.
Proof.
  intros H. unfold getMarker. rewrite H. simpl.
  eexists. split; [reflexivity|]. apply add_listeners_values.
Qed.

Lemma default_position_other (options : obj) (k : string) :
  k <> "position" -> get_own (default_position options) k = get_own options k.
Proof.
  intros H. unfold default_position.
  destruct (instanceof_LatLng _); auto. apply get_own_set_other. congruence.
Qed.

Lemma bridge_zindex_other (options : obj) (k : string) :
  k <> "zIndex" -> get_own (bridge_zindex options) k = get_own options k.
Proof.
  intros H. unfold bridge_zindex.
  destruct (_ && _); auto. apply get_own_set_other. congruence.
Qed.

(** The marker of an options object whose icon is a plain object. *)
Lemma getMarker_icon (fresh : nat) (options icon : obj)
    (events : list (string * handler)) :
  get_own options "icon" = VObj icon ->
  icon_accepted (VObj icon) = true ->
  exists options' m icon',
    getMarker fresh options events = Normal (options', m) /\
    get_own (values m) "icon" = VObj icon' /\
    (forall s, get_own icon "path" = VStr s ->
       get_own icon' "path" =
         if matches_symbol_name s then get_own SymbolPath s else VStr s) /\
    (forall key v, is_point_key key = true -> lookup icon key = Some v ->
       exists a0 a1, get_index v 0 = Normal a0 /\ get_index v 1 = Normal a1 /\
                     lookup icon' key = Some (VPoint a0 a1)) /\
    (forall key v, is_size_key key = true -> lookup icon key = Some v ->
       exists a0 a1, get_index v 0 = Normal a0 /\ get_index v 1 = Normal a1 /\
                     lookup icon' key = Some (VSize a0 a1)) /\
    (forall key, coerced_key key = false -> key <> "path" ->
       lookup icon' key = lookup icon key).
Proof.
  intros Hicon Hacc.
  destruct (normalize_icon_object options icon Hicon Hacc) as (icon' & Hn & Hrest).
  destruct (getMarker_unfold fresh _ _ events Hn) as (m & Hm & Hv & _).
  eexists _, m, icon'. split; [exact Hm|]. split; [|exact Hrest].
  rewrite Hv, bridge_zindex_other, default_position_other by discriminate.
  apply get_own_set_same.
Qed.

(* ================================================================== *)
(** * Properties of the marker factory *)

(** C5. For every options object whose [position] is absent or is not
    a resolved coordinate value, the marker that the factory constructs
    has the coordinate (0,0) as its initial position. The factory
    constructs a marker for every icon it accepts ([icon_accepted]). *)
Theorem position_defaults_to_origin (fresh : nat) (options : obj)
    (events : list (string * handler)) :
  instanceof_LatLng (get_own options "position") = false ->
  icon_accepted (get_own options "icon") = true ->
  exists options' m,
    getMarker fresh options events = Normal (options', m) /\
    get_own (values m) "position" = VLatLng 0 0.
Proof.
  intros Hpos Hacc.
  destruct (normalize_icon_completes options Hacc) as (options1 & Hn & Hother & _).
  destruct (getMarker_unfold fresh _ _ events Hn) as (m & Hm & Hv & _).
  eexists _, m. split; [exact Hm|].
  rewrite Hv, bridge_zindex_other by discriminate.
  unfold default_position. rewrite Hother, Hpos by discriminate.
  apply get_own_set_same.
Qed.

(** C8. For every options object whose canonical [zIndex] is unset and
    whose legacy lowercase [zindex] is set to a value [v], the marker
    that the factory constructs has z-index [v]. *)
Theorem legacy_zindex_is_bridged (fresh : nat) (options : obj)
    (events : list (string * handler)) (v : value) :
  typeof_undefined (get_own options "zIndex") = true ->
  get_own options "zindex" = v ->
  typeof_undefined v = false ->
  icon_accepted (get_own options "icon") = true ->
  exists options' m,
    getMarker fresh options events = Normal (options', m) /\
    get_own (values m) "zIndex" = v.
Proof.
  intros Hz Hl Hv Hacc.
  destruct (normalize_icon_completes options Hacc) as (options1 & Hn & Hother & _).
  destruct (getMarker_unfold fresh _ _ events Hn) as (m & Hm & Hvals & _).
  eexists _, m. split; [exact Hm|].
  rewrite Hvals. unfold bridge_zindex.
  rewrite !default_position_other, !Hother by discriminate.
  rewrite Hz, Hl, Hv. simpl. apply get_own_set_same.
Qed.

(** C6. For every icon object whose [path] is a string made of capital
    letters and underscores only, the icon path of the constructed
    marker is the entry of the SDK's symbol-path enumeration under that
    name; every other string path is passed on unchanged. *)
Theorem symbol_path_is_substituted (fresh : nat) (options icon : obj)
    (events : list (string * handler)) (s : string) :
  get_own options "icon" = VObj icon ->
  get_own icon "path" = VStr s ->
  icon_accepted (VObj icon) = true ->
  exists options' m icon',
    getMarker fresh options events = Normal (options', m) /\
    get_own (values m) "icon" = VObj icon' /\
    (matches_symbol_name s = true -> get_own icon' "path" = get_own SymbolPath s) /\
    (matches_symbol_name s = false -> get_own icon' "path" = VStr s).
Proof.
  intros Hicon Hpath Hacc.
  destruct (getMarker_icon fresh options icon events Hicon Hacc)
    as (options' & m & icon' & Hm & Hi & Hp & _).
  exists options', m, icon'. split; [exact Hm|]. split; [exact Hi|].
  specialize (Hp s Hpath).
  split; intros E; now rewrite E in Hp.
Qed.

(** C7. For every icon sub-field named [anchor] or [origin] given as a
    two-element numeric pair [[x, y]], the factory replaces it with a
    point whose [x] and [y] are the elements of the pair; for every
    sub-field named [size] or [scaledSize] given as [[w, h]], it
    replaces it with a dimension of width [w] and height [h]. *)
Theorem pairs_become_points_and_sizes (fresh : nat) (options icon : obj)
    (events : list (string * handler)) :
  get_own options "icon" = VObj icon ->
  icon_accepted (VObj icon) = true ->
  exists options' m icon',
    getMarker fresh options events = Normal (options', m) /\
    get_own (values m) "icon" = VObj icon' /\
    (forall key x y, key = "anchor" \/ key = "origin" ->
       lookup icon key = Some (VArr [VNum x; VNum y]) ->
       exists p, lookup icon' key = Some p /\ p = VPoint (VNum x) (VNum y) /\
                 get_field p "x" = Normal (VNum x) /\
                 get_field p "y" = Normal (VNum y)) /\
    (forall key w h, key = "size" \/ key = "scaledSize" ->
       lookup icon key = Some (VArr [VNum w; VNum h]) ->
       exists d, lookup icon' key = Some d /\ d = VSize (VNum w) (VNum h) /\
                 get_field d "width" = Normal (VNum w) /\
                 get_field d "height" = Normal (VNum h)).
Proof.
  intros Hicon Hacc.
  destruct (getMarker_icon fresh options icon events Hicon Hacc)
    as (options' & m & icon' & Hm & Hi & _ & Hpt & Hsz & _).
  exists options', m, icon'. split; [exact Hm|]. split; [exact Hi|]. split.
  - intros key x y Hk Hl.
    assert (Hp : is_point_key key = true) by (destruct Hk; subst; reflexivity).
    destruct (Hpt key _ Hp Hl) as (a0 & a1 & H0 & H1 & Hl').
    simpl in H0, H1. injection H0 as <-. injection H1 as <-.
    eexists. split; [exact Hl'|]. repeat split.
  - intros key w h Hk Hl.
    assert (Hp : is_size_key key = true) by (destruct Hk; subst; reflexivity).
    destruct (Hsz key _ Hp Hl) as (a0 & a1 & H0 & H1 & Hl').
    simpl in H0, H1. injection H0 as <-. injection H1 as <-.
    eexists. split; [exact Hl'|]. repeat split.
Qed.

(** C2, as the code has it. A sub-field named [anchor], [origin],
    [size] or [scaledSize] is replaced whatever its shape: by the point
    or the dimension built from its elements 0 and 1, [undefined] where
    it has none. The factory leaves unchanged the sub-fields of every
    other name, [path] apart. *)
Theorem icon_fields_coerced_whatever_shape (fresh : nat) (options icon : obj)
    (events : list (string * handler)) :
  get_own options "icon" = VObj icon ->
  icon_accepted (VObj icon) = true ->
  exists options' m icon',
    getMarker fresh options events = Normal (options', m) /\
    get_own (values m) "icon" = VObj icon' /\
    (forall key v, key = "anchor" \/ key = "origin" ->
       lookup icon key = Some v ->
       exists a0 a1, get_index v 0 = Normal a0 /\ get_index v 1 = Normal a1 /\
                     lookup icon' key = Some (VPoint a0 a1)) /\
    (forall key v, key = "size" \/ key = "scaledSize" ->
       lookup icon key = Some v ->
       exists a0 a1, get_index v 0 = Normal a0 /\ get_index v 1 = Normal a1 /\
                     lookup icon' key = Some (VSize a0 a1)) /\
    (forall key, coerced_key key = false -> key <> "path" ->
       lookup icon' key = lookup icon key).
Proof.
  intros Hicon Hacc.
  destruct (getMarker_icon fresh options icon events Hicon Hacc)
    as (options' & m & icon' & Hm & Hi & _ & Hpt & Hsz & Hoth).
  exists options', m, icon'. split; [exact Hm|]. split; [exact Hi|].
  split; [|split; [|exact Hoth]].
  - intros key v Hk. apply Hpt. destruct Hk; subst; reflexivity.
  - intros key v Hk. apply Hsz. destruct Hk; subst; reflexivity.
Qed.

(* ================================================================== *)
(** * Linking *)

Lemma get_field_completes (v : value) (k : string) :
  nullish v = false -> exists a, get_field v k = Normal a.
Proof. destruct v; simpl; intros H; try discriminate; eauto. Qed.

(** The label of a marker that has an icon. *)
Lemma new_MarkerLabel_fields (customlabel : value) (m : Marker) :
  nullish customlabel = false ->
  nullish (get_own (values m) "icon") = false ->
  exists l text color fillColor fillOpacity strokeColor strokeWeight iconFill,
    new_MarkerLabel customlabel m = Normal l /\
    label_marker l = id m /\ position_bound_to l = id m /\
    get_field customlabel "text" = Normal text /\
    get_field customlabel "color" = Normal color /\
    get_field customlabel "fillColor" = Normal fillColor /\
    get_field customlabel "fillOpacity" = Normal fillOpacity /\
    get_field customlabel "strokeColor" = Normal strokeColor /\
    get_field customlabel "strokeWeight" = Normal strokeWeight /\
    get_field (get_own (values m) "icon") "fillColor" = Normal iconFill /\
    get_own (label_values l) "text" = text /\
    get_own (label_values l) "color" = js_or color (VStr "#000000") /\
    get_own (label_values l) "fillColor" = js_or fillColor (VStr "#ffffff") /\
    get_own (label_values l) "fillOpacity" = js_or fillOpacity (VNum 1) /\
    get_own (label_values l) "strokeColor" = js_or strokeColor (VStr "#ffffff") /\
    get_own (label_values l) "strokeWeight" = js_or strokeWeight (VNum 1) /\
    get_own (label_values l) "zIndex"
      = js_or (get_own (values m) "zIndex") (VStr "auto") /\
    get_own (label_values l) "backgroundColor" = js_or iconFill (VStr "transparent").
Proof.
  intros Hc Hi. unfold new_MarkerLabel.
  destruct (get_field_completes customlabel "text" Hc) as [text Ht].
  destruct (get_field_completes customlabel "color" Hc) as [color Hco].
  destruct (get_field_completes customlabel "fillColor" Hc) as [fillColor Hfc].
  destruct (get_field_completes customlabel "fillOpacity" Hc) as [fillOpacity Hfo].
  destruct (get_field_completes customlabel "strokeColor" Hc) as [strokeColor Hsc].
  destruct (get_field_completes customlabel "strokeWeight" Hc) as [strokeWeight Hsw].
  destruct (get_field_completes _ "fillColor" Hi) as [iconFill Hif].
  rewrite Ht, Hco, Hfc, Hfo, Hsc, Hsw, Hif. simpl.
  eexists _, text, color, fillColor, fillOpacity, strokeColor, strokeWeight, iconFill.
  repeat split.
Qed.

(** The label is what raises when the marker has no icon. *)
Lemma new_MarkerLabel_without_icon (customlabel : value) (m : Marker) :
  nullish (get_own (values m) "icon") = true ->
  new_MarkerLabel customlabel m = Throw TypeError.
Proof.
  intros Hi. unfold new_MarkerLabel.
  destruct (get_field customlabel "text") as [?|[]]; simpl; auto.
  destruct (get_field customlabel "color") as [?|[]]; simpl; auto.
  destruct (get_field customlabel "fillColor") as [?|[]]; simpl; auto.
  destruct (get_field customlabel "fillOpacity") as [?|[]]; simpl; auto.
  destruct (get_field customlabel "strokeColor") as [?|[]]; simpl; auto.
  destruct (get_field customlabel "strokeWeight") as [?|[]]; simpl; auto.
  destruct (get_own (values m) "icon"); try discriminate; reflexivity.
Qed.

(** The marker of an accepted options object, and what [linkFunc] reads
    from it afterwards. *)
Lemma getMarker_accepted (fresh : nat) (options : obj)
    (events : list (string * handler)) :
  icon_accepted (get_own options "icon") = true ->
  exists options' m,
    getMarker fresh options events = Normal (options', m) /\
    values m = options' /\ id m = fresh /\
    get_own options' "customlabel" = get_own options "customlabel" /\
    nullish (get_own options' "icon") = nullish (get_own options "icon") /\
    get_own options' "position"
      = (if instanceof_LatLng (get_own options "position")
         then get_own options "position" else VLatLng 0 0).
Proof.
  intros Hacc.
  destruct (normalize_icon_completes options Hacc) as (options1 & Hn & Hother & Hnull).
  destruct (getMarker_unfold fresh _ _ events Hn) as (m & Hm & Hv & Hid).
  eexists _, m. split; [exact Hm|]. split; [exact Hv|]. split; [exact Hid|].
  split; [|split].
  - rewrite bridge_zindex_other, default_position_other by discriminate.
    apply Hother. discriminate.
  - rewrite bridge_zindex_other, default_position_other by discriminate.
    exact Hnull.
  - rewrite bridge_zindex_other by discriminate.
    unfold default_position. rewrite Hother by discriminate.
    destruct (instanceof_LatLng (get_own options "position")).
    + apply Hother. discriminate.
    + apply get_own_set_same.
Qed.

(** Every accepted options object links, and this is the element. *)
Lemma linkFunc_accepted (fresh : nat) (options : obj)
    (events : list (string * handler)) (cb : value) :
  link_accepted options = true ->
  exists options' m lbl,
    getMarker fresh options events = Normal (options', m) /\
    values m = options' /\ id m = fresh /\
    (if typeof_undefined (get_own options "customlabel") then lbl = None
     else exists l, lbl = Some l /\
            new_MarkerLabel (get_own options "customlabel") m = Normal l) /\
    linkFunc fresh options events cb =
      Normal {| marker := m;
                label := lbl;
                trace := ((if truthy (address_of options)
                           then [addObject "markers" fresh;
                                 getGeoLocation (address_of options)]
                           else [addObject "markers" fresh])
                          ++ [observeAttrSetObj fresh])%list;
                pending := if truthy (address_of options)
                           then Some (address_of options) else None;
                geoCallback := cb;
                on_destroy := [deleteObject "markers" fresh] |}.
Proof.
  intros Hacc. apply andb_true_iff in Hacc as [Hicon Hlabel].
  destruct (getMarker_accepted fresh options events Hicon)
    as (options' & m & Hm & Hv & Hid & Hcl & Hnull & _).
  unfold linkFunc. rewrite Hm. simpl. rewrite Hcl, Hid.
  unfold label_accepted in Hlabel.
  destruct (typeof_undefined (get_own options "customlabel")) eqn:Et.
  - exists options', m, None. simpl. repeat split; auto.
  - simpl in Hlabel. apply andb_true_iff in Hlabel as [Hc Hi].
    apply negb_true_iff in Hc, Hi.
    destruct (new_MarkerLabel_fields (get_own options "customlabel") m Hc)
      as (l & ? & ? & ? & ? & ? & ? & ? & Hl & _).
    { rewrite Hv, Hnull. exact Hi. }
    exists options', m, (Some l). rewrite Hl. simpl.
    repeat split; eauto.
Qed.

(* ================================================================== *)
(** * After linking *)

Lemma only_deletions_step (d : directive) (o : occurrence) :
  only_deletions d -> only_deletions (step d o).
Proof.
  unfold only_deletions. destruct o as [lat lng|]; simpl; intros H.
  - unfold resolve. destruct (pending d); exact H.
  - constructor.
Qed.

Lemma deletions_are_no_requests (l : list effect) :
  Forall (fun e => is_deleteObject e = true) l ->
  filter is_getGeoLocation l = [] /\ filter is_evaluate l = [].
Proof.
  induction 1 as [|e l He _ [IH1 IH2]]; simpl; auto.
  destruct e; try discriminate; auto.
Qed.

(** Nothing that happens later asks for another geocoding. *)
Lemma run_requests (os : list occurrence) (d : directive) :
  only_deletions d ->
  filter is_getGeoLocation (trace (run os d)) = filter is_getGeoLocation (trace d).
Proof.
  revert d. induction os as [|o os IH]; intros d Hd; [reflexivity|].
  unfold run in *. simpl. rewrite IH by now apply only_deletions_step.
  destruct o as [lat lng|]; simpl.
  - unfold resolve. destruct (pending d); auto. simpl.
    rewrite !filter_app. simpl.
    destruct (truthy (geoCallback d)); simpl; now rewrite app_nil_r.
  - rewrite filter_app.
    destruct (deletions_are_no_requests _ Hd) as [-> _]. apply app_nil_r.
Qed.

(** Once the promise is settled, nothing evaluates the geo-callback. *)
Lemma run_settled (os : list occurrence) (d : directive) :
  only_deletions d -> pending d = None ->
  filter is_evaluate (trace (run os d)) = filter is_evaluate (trace d).
Proof.
  revert d. induction os as [|o os IH]; intros d Hd Hp; [reflexivity|].
  unfold run in *. simpl. destruct o as [lat lng|]; simpl.
  - unfold resolve. rewrite Hp. now apply IH.
  - rewrite IH; [| now apply (only_deletions_step d destroyed) | exact Hp].
    simpl. rewrite filter_app.
    destruct (deletions_are_no_requests _ Hd) as [_ ->]. apply app_nil_r.
Qed.

Lemma resolve_deletions (lat lng : float) (d : directive) :
  filter is_deleteObject (trace (resolve lat lng d)) = filter is_deleteObject (trace d)
  /\ on_destroy (resolve lat lng d) = on_destroy d
  /\ id (marker (resolve lat lng d)) = id (marker d).
Proof.
  unfold resolve. destruct (pending d); auto. simpl.
  rewrite !filter_app. simpl.
  destruct (truthy (geoCallback d)); simpl; now rewrite app_nil_r.
Qed.

(** Resolutions delete nothing and leave the handler bound. *)
Lemma run_resolutions (os : list occurrence) (d : directive) :
  forallb is_resolved os = true ->
  filter is_deleteObject (trace (run os d)) = filter is_deleteObject (trace d)
  /\ on_destroy (run os d) = on_destroy d
  /\ id (marker (run os d)) = id (marker d).
Proof.
  revert d. induction os as [|o os IH]; intros d Hos; [auto|].
  simpl in Hos. apply andb_true_iff in Hos as [Ho Hos].
  destruct o as [lat lng|]; [|discriminate].
  unfold run in *. simpl.
  destruct (IH (resolve lat lng d) Hos) as (-> & -> & ->).
  apply resolve_deletions.
Qed.

(** Once the handlers have run, nothing deletes again. *)
Lemma run_destroyed (os : list occurrence) (d : directive) :
  on_destroy d = [] ->
  filter is_deleteObject (trace (run os d)) = filter is_deleteObject (trace d).
Proof.
  revert d. induction os as [|o os IH]; intros d Hd; [reflexivity|].
  unfold run in *. simpl. destruct o as [lat lng|]; simpl.
  - destruct (resolve_deletions lat lng d) as (E1 & E2 & _).
    rewrite IH by now rewrite E2. exact E1.
  - rewrite IH by reflexivity. simpl.
    rewrite Hd. now rewrite app_nil_r.
Qed.

(* ================================================================== *)
(** * Exactly which options link *)

Lemma get_index_not_nullish (v a : value) (i : nat) :
  get_index v i = Normal a -> nullish v = false.
Proof. destruct v; simpl; intros H; try discriminate; reflexivity. Qed.

Lemma for_in_hasOwnProperty (keys : list string) (icon icon' : obj) :
  keys <> [] -> for_in keys icon = Normal icon' ->
  has_key icon "hasOwnProperty" = false.
Proof.
  destruct keys as [|key rest]; [contradiction|]. intros _. simpl.
  unfold coerce_icon_field. destruct (has_key icon "hasOwnProperty"); [discriminate|auto].
Qed.

Lemma for_in_visited_not_nullish (keys : list string) (icon icon' : obj) (k : string) :
  NoDup keys -> In k keys -> coerced_key k = true ->
  for_in keys icon = Normal icon' -> nullish (get_own icon k) = false.
Proof.
  intros Hnd Hin Hc Hloop. unfold coerced_key in Hc.
  destruct (is_point_key k) eqn:Ep.
  - destruct (for_in_point _ _ _ k Hnd Hin Ep Hloop) as (a0 & _ & H0 & _).
    now apply get_index_not_nullish in H0.
  - simpl in Hc.
    destruct (for_in_size _ _ _ k Hnd Hin Hc Hloop) as (a0 & _ & H0 & _).
    now apply get_index_not_nullish in H0.
Qed.

Lemma normalize_icon_accepts (options options1 : obj) :
  normalize_icon options = Normal options1 ->
  icon_accepted (get_own options "icon") = true.
Proof.
  unfold normalize_icon.
  destruct (get_own options "icon") as [ | | b | n | s | l | icon | a b | a b | a b ];
    try reflexivity.
  destruct (symbol_path icon) as [icon1|] eqn:Esp; [|discriminate]. simpl.
  destruct (for_in (own_keys icon1) icon1) as [icon2|] eqn:Eloop; [|discriminate].
  intros _.
  assert (Hkeys : forall k, k <> "path" -> has_key icon1 k = has_key icon k).
  { intros k Hk. unfold has_key. now rewrite (symbol_path_other _ _ _ Esp Hk). }
  assert (Hget : forall k, k <> "path" -> get_own icon1 k = get_own icon k).
  { intros k Hk. unfold get_own. now rewrite (symbol_path_other _ _ _ Esp Hk). }
  assert (Hfield : forall k, coerced_key k = true -> field_ok icon k = true).
  { intros k Hc. unfold field_ok. destruct (has_key icon k) eqn:Ek; [|reflexivity].
    pose proof (coerced_key_not_path k Hc) as Hnp. simpl.
    rewrite <- Hget by exact Hnp.
    assert (Hin : In k (own_keys icon1))
      by (apply own_keys_In; now rewrite Hkeys).
    now rewrite (for_in_visited_not_nullish _ _ _ k (own_keys_NoDup icon1) Hin Hc Eloop). }
  simpl. rewrite !Hfield by reflexivity.
  unfold symbol_path in Esp.
  destruct (to_string (get_own icon "path")); [|discriminate]. simpl.
  rewrite !andb_true_r. apply negb_true_iff.
  destruct (has_key icon "hasOwnProperty") eqn:Eh; [|reflexivity].
  rewrite <- Hkeys in Eh by discriminate.
  rewrite <- (for_in_hasOwnProperty (own_keys icon1) icon1 icon2); auto.
  intros Hnil. apply own_keys_In in Eh. rewrite Hnil in Eh. contradiction.
Qed.

(** [getMarker] returns a marker for the icons it accepts, and raises
    for every other. *)
Lemma getMarker_completes_iff (fresh : nat) (options : obj)
    (events : list (string * handler)) :
  completes (getMarker fresh options events) = icon_accepted (get_own options "icon").
Proof.
  destruct (icon_accepted (get_own options "icon")) eqn:Ea.
  - destruct (getMarker_accepted fresh options events Ea) as (o & m & -> & _).
    reflexivity.
  - unfold getMarker. destruct (normalize_icon options) as [options1|] eqn:En;
      [|reflexivity].
    apply normalize_icon_accepts in En. congruence.
Qed.

(** [linkFunc] completes for the options it accepts, and raises for
    every other. *)
Lemma linkFunc_completes_iff (fresh : nat) (options : obj)
    (events : list (string * handler)) (cb : value) :
  completes (linkFunc fresh options events cb) = link_accepted options.
Proof.
  destruct (link_accepted options) eqn:Ea.
  - destruct (linkFunc_accepted fresh options events cb Ea)
      as (o & m & lbl & _ & _ & _ & _ & ->). reflexivity.
  - unfold link_accepted in Ea.
    pose proof (getMarker_completes_iff fresh options events) as Hg.
    destruct (icon_accepted (get_own options "icon")) eqn:Ei.
    + simpl in Ea.
      destruct (getMarker_accepted fresh options events Ei)
        as (o & m & Hm & Hv & _ & Hc & Hnull & _).
      unfold linkFunc. rewrite Hm. simpl. rewrite Hc.
      unfold label_accepted in Ea.
      destruct (typeof_undefined (get_own options "customlabel")); [discriminate|].
      simpl in Ea.
      destruct (nullish (get_own options "icon")) eqn:En.
      * rewrite new_MarkerLabel_without_icon by (now rewrite Hv, Hnull).
        reflexivity.
      * rewrite andb_true_r in Ea. apply negb_false_iff in Ea.
        unfold new_MarkerLabel.
        destruct (get_own options "customlabel"); try discriminate; reflexivity.
    + unfold linkFunc. destruct (getMarker fresh options events); [discriminate|].
      reflexivity.
Qed.

(* ================================================================== *)
(** * Properties of the directive *)

(** C3, as the code has it. Whenever linking completes
    ([link_accepted]): when the parsed position is a resolved
    coordinate, the marker is constructed at that coordinate and no
    geocoding is ever asked for. When it is a non-empty address string,
    the marker is constructed at (0,0) and geocoding is asked for once,
    with exactly that string; when it resolves, the marker moves to the
    resolved coordinate, the controller is asked to zoom to include the
    markers, and a non-empty geo-callback expression is evaluated, once
    whatever happens later. *)
Theorem position_decides_geocoding (fresh : nat) (options : obj)
    (events : list (string * handler)) (cb : value) :
  link_accepted options = true ->
  exists d,
    linkFunc fresh options events cb = Normal d /\
    (forall lat lng, get_own options "position" = VLatLng lat lng ->
       get_own (values (marker d)) "position" = VLatLng lat lng /\
       forall os, filter is_getGeoLocation (trace (run os d)) = []) /\
    (forall s, get_own options "position" = VStr s -> s <> "" ->
       get_own (values (marker d)) "position" = VLatLng 0 0 /\
       (forall os, filter is_getGeoLocation (trace (run os d))
                   = [getGeoLocation (VStr s)]) /\
       filter is_evaluate (trace d) = [] /\
       forall lat lng,
         get_own (values (marker (resolve lat lng d))) "position" = VLatLng lat lng /\
         trace (resolve lat lng d)
           = (trace d ++ zoomToIncludeMarkers
                :: (if truthy cb then [evaluate cb] else []))%list /\
         forall os, filter is_evaluate (trace (run os (resolve lat lng d)))
                    = if truthy cb then [evaluate cb] else []).
Proof.
  intros Hacc.
  destruct (linkFunc_accepted fresh options events cb Hacc)
    as (options' & m & lbl & Hm & Hv & Hid & _ & Hlink).
  apply andb_true_iff in Hacc as [Hicon _].
  destruct (getMarker_accepted fresh options events Hicon)
    as (options2 & m2 & Hm2 & _ & _ & _ & _ & Hpos).
  rewrite Hm in Hm2. injection Hm2 as <- <-.
  eexists. split; [exact Hlink|]. split.
  - intros lat lng Hp. simpl. split.
    + rewrite Hv, Hpos, Hp. reflexivity.
    + intros os. rewrite run_requests by (repeat constructor). simpl.
      unfold address_of. rewrite Hp. reflexivity.
  - intros s Hp Hs.
    assert (Ha : address_of options = VStr s) by (unfold address_of; now rewrite Hp).
    assert (Ht : truthy (VStr s) = true).
    { simpl. apply negb_true_iff. now apply String.eqb_neq. }
    rewrite Ha, Ht. simpl. split; [|split; [|split]].
    + rewrite Hv, Hpos, Hp. reflexivity.
    + intros os. rewrite run_requests by (repeat constructor). reflexivity.
    + reflexivity.
    + intros lat lng. unfold resolve. simpl. split; [|split].
      * apply get_own_set_same.
      * reflexivity.
      * intros os. rewrite run_settled by (try reflexivity; repeat constructor).
        simpl. destruct (truthy cb); reflexivity.
Qed.

(** What [link_outcome] adds to [linkFunc]: the element a raising
    label leaves behind. *)
Lemma link_outcome_completed (fresh : nat) (options : obj)
    (events : list (string * handler)) (cb : value) (d : directive) :
  linkFunc fresh options events cb = Normal d <->
  link_outcome fresh options events cb = Normal {| element := d; raised := None |}.
Proof.
  unfold linkFunc, link_outcome.
  destruct (getMarker fresh options events) as [[options' m]|e]; simpl.
  - destruct (typeof_undefined (get_own options' "customlabel")).
    + split; intros H; injection H as <-; reflexivity.
    + destruct (new_MarkerLabel (get_own options' "customlabel") m) as [l|e]; simpl.
      * split; intros H; injection H as <-; reflexivity.
      * split; discriminate.
  - split; discriminate.
Qed.

Lemma link_outcome_raised (fresh : nat) (options : obj)
    (events : list (string * handler)) (cb : value) (d : directive) (e : exn) :
  link_outcome fresh options events cb = Normal {| element := d; raised := Some e |} ->
  linkFunc fresh options events cb = Throw e /\
  exists options', getMarker fresh options events = Normal (options', marker d).
Proof.
  unfold linkFunc, link_outcome.
  destruct (getMarker fresh options events) as [[options' m]|e']; simpl; [|discriminate].
  destruct (typeof_undefined (get_own options' "customlabel")); [discriminate|].
  destruct (new_MarkerLabel (get_own options' "customlabel") m) as [l|e']; simpl;
    [discriminate|].
  intros H. injection H as <- <-. simpl. eauto.
Qed.

(** X24. Lines 132-134. For every element whose linking completed
    ([link_accepted]): nothing is deleted before it is destroyed, and
    when it is destroyed the directive asks the map controller to
    delete the marker it created from the ['markers'] collection,
    exactly once, whether the geocoding is still outstanding, was
    resolved before, or resolves afterwards. *)
Theorem destroy_deletes_marker_once (fresh : nat) (options : obj)
    (events : list (string * handler)) (cb : value) :
  link_accepted options = true ->
  exists d,
    linkFunc fresh options events cb = Normal d /\
    id (marker d) = fresh /\
    forall before later,
      forallb is_resolved before = true -> forallb is_resolved later = true ->
      filter is_deleteObject (trace (run before d)) = [] /\
      filter is_deleteObject (trace (run later (destroy (run before d))))
        = [deleteObject "markers" (id (marker d))].
Proof.
  intros Hacc.
  destruct (linkFunc_accepted fresh options events cb Hacc)
    as (options' & m & lbl & _ & _ & Hid & _ & Hlink).
  eexists. split; [exact Hlink|]. split; [exact Hid|].
  intros before later Hb Hl. simpl.
  match goal with |- context [run before ?x] =>
    destruct (run_resolutions before x Hb) as (Ht & Hd & _) end.
  assert (Hnone : filter is_deleteObject
            ((if truthy (address_of options)
              then [addObject "markers" fresh; getGeoLocation (address_of options)]
              else [addObject "markers" fresh]) ++ [observeAttrSetObj fresh]) = [])
    by (destruct (truthy (address_of options)); reflexivity).
  simpl in Ht, Hd. rewrite Hnone in Ht. split; [exact Ht|].
  match goal with |- context [run later ?x] =>
    destruct (run_resolutions later x Hl) as (-> & _) end.
  simpl. rewrite filter_app, Ht, Hd, Hid. reflexivity.
Qed.

(** C10. The defaults of the label apply to every falsy value of the
    custom label, not only to a missing one: with [fillOpacity] or
    [strokeWeight] given as [0], the label is constructed with
    [fillOpacity] 1 and [strokeWeight] 1. *)
Theorem falsy_label_fields_take_defaults (fresh : nat) (options customlabel : obj)
    (events : list (string * handler)) (cb : value) :
  get_own options "customlabel" = VObj customlabel ->
  link_accepted options = true ->
  exists d l,
    linkFunc fresh options events cb = Normal d /\ label d = Some l /\
    (truthy (get_own customlabel "color") = false ->
       get_own (label_values l) "color" = VStr "#000000") /\
    (truthy (get_own customlabel "fillColor") = false ->
       get_own (label_values l) "fillColor" = VStr "#ffffff") /\
    (truthy (get_own customlabel "fillOpacity") = false ->
       get_own (label_values l) "fillOpacity" = VNum 1) /\
    (truthy (get_own customlabel "strokeColor") = false ->
       get_own (label_values l) "strokeColor" = VStr "#ffffff") /\
    (truthy (get_own customlabel "strokeWeight") = false ->
       get_own (label_values l) "strokeWeight" = VNum 1) /\
    (get_own customlabel "fillOpacity" = VNum 0 ->
       get_own (label_values l) "fillOpacity" = VNum 1) /\
    (get_own customlabel "strokeWeight" = VNum 0 ->
       get_own (label_values l) "strokeWeight" = VNum 1).
Proof.
  intros Hcl Hacc.
  destruct (linkFunc_accepted fresh options events cb Hacc)
    as (options' & m & lbl & _ & _ & _ & Hlbl & Hlink).
  rewrite Hcl in Hlbl. simpl in Hlbl. destruct Hlbl as (l & -> & Hl).
  unfold new_MarkerLabel in Hl. simpl in Hl.
  destruct (get_field (get_own (values m) "icon") "fillColor") as [iconFill|];
    [|discriminate].
  simpl in Hl. injection Hl as <-.
  eexists _, _. split; [exact Hlink|]. split; [reflexivity|].
  cbn [marker label_values]. read_own. unfold js_or.
  repeat split; intros E; rewrite E; reflexivity.
Qed.

(** C4. For every custom label in which only the text is set, the
    label is constructed with color [#000000], fillColor [#ffffff],
    fillOpacity [1], strokeColor [#ffffff] and strokeWeight [1]. Its
    z-index is the marker's when that is truthy, and the token [auto]
    otherwise, so when the marker has none; its background colour is
    the [fillColor] of the marker's icon when that is truthy, and
    [transparent] otherwise. This holds on all options that link
    ([link_accepted]): with a custom label, those with an icon. *)
Theorem text_only_label_takes_defaults (fresh : nat) (options customlabel : obj)
    (events : list (string * handler)) (cb : value) :
  get_own options "customlabel" = VObj customlabel ->
  (forall k, k <> "text" -> get_own customlabel k = VUndefined) ->
  link_accepted options = true ->
  exists d l iconFill,
    linkFunc fresh options events cb = Normal d /\ label d = Some l /\
    get_field (get_own (values (marker d)) "icon") "fillColor" = Normal iconFill /\
    get_own (label_values l) "text" = get_own customlabel "text" /\
    get_own (label_values l) "color" = VStr "#000000" /\
    get_own (label_values l) "fillColor" = VStr "#ffffff" /\
    get_own (label_values l) "fillOpacity" = VNum 1 /\
    get_own (label_values l) "strokeColor" = VStr "#ffffff" /\
    get_own (label_values l) "strokeWeight" = VNum 1 /\
    (truthy (get_own (values (marker d)) "zIndex") = true ->
       get_own (label_values l) "zIndex" = get_own (values (marker d)) "zIndex") /\
    (truthy (get_own (values (marker d)) "zIndex") = false ->
       get_own (label_values l) "zIndex" = VStr "auto") /\
    (get_own (values (marker d)) "zIndex" = VUndefined ->
       get_own (label_values l) "zIndex" = VStr "auto") /\
    (truthy iconFill = true ->
       get_own (label_values l) "backgroundColor" = iconFill) /\
    (truthy iconFill = false ->
       get_own (label_values l) "backgroundColor" = VStr "transparent").
Proof.
  intros Hcl Honly Hacc.
  destruct (linkFunc_accepted fresh options events cb Hacc)
    as (options' & m & lbl & _ & _ & _ & Hlbl & Hlink).
  rewrite Hcl in Hlbl. simpl in Hlbl. destruct Hlbl as (l & -> & Hl).
  unfold new_MarkerLabel in Hl. simpl in Hl.
  destruct (get_field (get_own (values m) "icon") "fillColor") as [iconFill|] eqn:Ef;
    [|discriminate].
  simpl in Hl. injection Hl as <-.
  eexists _, _, iconFill. split; [exact Hlink|]. split; [reflexivity|].
  split; [exact Ef|].
  cbn [marker label_values]. read_own.
  rewrite (Honly "color"), (Honly "fillColor"), (Honly "fillOpacity"),
    (Honly "strokeColor"), (Honly "strokeWeight") by discriminate.
  unfold js_or. simpl.
  repeat split; intros E; rewrite E; reflexivity.
Qed.

(** With a custom label and no icon, line 113 reads [fillColor] off
    [undefined]. *)
Lemma linkFunc_without_icon (fresh : nat) (options : obj)
    (events : list (string * handler)) (cb : value) :
  typeof_undefined (get_own options "customlabel") = false ->
  nullish (get_own options "icon") = true ->
  linkFunc fresh options events cb = Throw TypeError.
Proof.
  intros Hcl Hi.
  assert (Hacc : icon_accepted (get_own options "icon") = true)
    by (destruct (get_own options "icon"); try discriminate; reflexivity).
  destruct (getMarker_accepted fresh options events Hacc)
    as (options' & m & Hm & Hv & _ & Hc & Hnull & _).
  unfold linkFunc. rewrite Hm. simpl. rewrite Hc, Hcl.
  rewrite new_MarkerLabel_without_icon; [reflexivity|].
  rewrite Hv, Hnull. exact Hi.
Qed.

(** C1. Linking does not always complete: whenever a custom label is
    supplied and the options carry no icon, a [TypeError] leaves
    [linkFunc], whatever the other options and the events are. *)
Theorem link_raises_without_icon (fresh : nat) (options : obj)
    (events : list (string * handler)) (cb : value) :
  typeof_undefined (get_own options "customlabel") = false ->
  nullish (get_own options "icon") = true ->
  completes (linkFunc fresh options events cb) = false /\
  linkFunc fresh options events cb = Throw TypeError.
Proof.
  intros Hcl Hi. rewrite (linkFunc_without_icon fresh options events cb Hcl Hi).
  split; reflexivity.
Qed.

(** An element that is waiting for nothing and has no [$destroy]
    handler asks for nothing any more. *)
Lemma run_idle (os : list occurrence) (d : directive) :
  pending d = None -> on_destroy d = [] -> trace (run os d) = trace d.
Proof.
  revert d. induction os as [|o os IH]; intros d Hp Hd; [reflexivity|].
  change (trace (run os (step d o)) = trace d). destruct o as [lat lng|].
  - assert (E : step d (resolved lat lng) = d)
      by (unfold step, resolve; now rewrite Hp).
    rewrite E. now apply IH.
  - rewrite IH by (simpl; auto). simpl. rewrite Hd. apply app_nil_r.
Qed.

(** C9. Destruction does not always delete the marker. Whenever a
    custom label is supplied and the options carry no icon, linking
    creates the marker and adds it to the ['markers'] collection
    (lines 98-99), raises at line 113, and has bound no [$destroy]
    handler (line 132): whatever happens to the element afterwards, the
    one call of the directive stays the [addObject], and no
    [deleteObject] is ever made for the marker it created. *)
Theorem unlinked_marker_is_never_deleted (fresh : nat) (options : obj)
    (events : list (string * handler)) (cb : value) :
  typeof_undefined (get_own options "customlabel") = false ->
  nullish (get_own options "icon") = true ->
  exists d,
    link_outcome fresh options events cb
      = Normal {| element := d; raised := Some TypeError |} /\
    linkFunc fresh options events cb = Throw TypeError /\
    id (marker d) = fresh /\
    trace d = [addObject "markers" fresh] /\
    forall later,
      trace (run later d) = [addObject "markers" fresh] /\
      filter is_deleteObject (trace (run later d)) = [].
Proof.
  intros Hcl Hi.
  assert (Hacc : icon_accepted (get_own options "icon") = true)
    by (destruct (get_own options "icon"); try discriminate; reflexivity).
  destruct (getMarker_accepted fresh options events Hacc)
    as (options' & m & Hm & Hv & Hid & Hc & Hnull & _).
  assert (Hraise : new_MarkerLabel (get_own options' "customlabel") m = Throw TypeError)
    by (apply new_MarkerLabel_without_icon; rewrite Hv, Hnull; exact Hi).
  eexists. split; [|split; [|split; [|split]]].
  - unfold link_outcome. rewrite Hm. simpl. rewrite Hc in Hraise |- *.
    rewrite Hcl, Hraise. simpl.
    reflexivity.
  - exact (linkFunc_without_icon fresh options events cb Hcl Hi).
  - exact Hid.
  - simpl. now rewrite Hid.
  - intros later. rewrite run_idle by reflexivity. simpl. rewrite Hid.
    split; reflexivity.
Qed.

(* ================================================================== *)
(** * More of the marker factory *)

Lemma add_listeners_registrations (events : list (string * handler))
    (names : list string) (m : Marker) :
  listeners (add_listeners events names m)
    = (listeners m ++ flat_map (registration events) names)%list.
Proof.
  revert m. induction names as [|n rest IH]; intros m; simpl.
  - now rewrite app_nil_r.
  - rewrite IH. unfold registration.
    destruct (String.eqb n ""), (lookup_handler events n); simpl;
      try reflexivity.
    now rewrite <- app_assoc.
Qed.

Lemma handler_In_keys (events : list (string * handler)) (k : string) :
  In k (map fst events) <-> lookup_handler events k <> None.
Proof.
  induction events as [|[k' h'] rest IH]; simpl.
  - split; [tauto | congruence].
  - destruct (String.eqb_spec k' k) as [->|Hne].
    + split; [discriminate | auto].
    + rewrite <- IH. split; [intros [E|H]; [contradiction | exact H] | auto].
Qed.

Lemma registration_named (events : list (string * handler)) (k name : string) :
  filter (named name) (registration events k)
    = if String.eqb k name then registration events k else [].
Proof.
  unfold registration.
  destruct (String.eqb k ""), (lookup_handler events k);
    try (destruct (String.eqb k name); reflexivity).
  simpl. unfold named. simpl. now destruct (String.eqb k name).
Qed.

Lemma registrations_named (events : list (string * handler)) (keys : list string)
    (name : string) :
  NoDup keys ->
  filter (named name) (flat_map (registration events) keys)
    = if in_dec string_dec name keys then registration events name else [].
Proof.
  induction 1 as [|k rest Hnotin Hnd IH]; [reflexivity|].
  simpl flat_map. rewrite filter_app, registration_named, IH.
  destruct (String.eqb_spec k name) as [->|Hne].
  - destruct (in_dec string_dec name rest) as [Hin|_]; [contradiction|].
    destruct (in_dec string_dec name (name :: rest)) as [_|Hn];
      [apply app_nil_r | exfalso; apply Hn; now left].
  - cbn [app].
    destruct (in_dec string_dec name rest) as [Hin|Hout];
      destruct (in_dec string_dec name (k :: rest)) as [Hin'|Hout']; auto.
    + exfalso. apply Hout'. now right.
    + destruct Hin' as [E|Hin']; contradiction.
Qed.

Lemma handler_of_entry (l : list (string * handler)) (k : string) (h : handler) :
  NoDup (map fst l) -> In (k, h) l -> lookup_handler l k = Some h.
Proof.
  induction l as [|[k' h'] rest IH]; simpl; intros Hnd Hin; [contradiction|].
  inversion Hnd as [|? ? Hnotin Hnd']; subst.
  destruct Hin as [E|Hin].
  - injection E as -> ->. now rewrite String.eqb_refl.
  - destruct (String.eqb_spec k' k) as [->|_]; [|now apply IH].
    exfalso. apply Hnotin. apply in_map_iff. now exists (k, h).
Qed.

Lemma registrations_in_order (events l : list (string * handler)) :
  (forall k h, In (k, h) l -> lookup_handler events k = Some h) ->
  flat_map (registration events) (map fst l)
    = filter (fun p => negb (String.eqb (fst p) "")) l.
Proof.
  induction l as [|[k h] rest IH]; intros Hl; [reflexivity|].
  simpl. rewrite IH by (intros k' h' Hin; apply Hl; now right).
  unfold registration. rewrite (Hl k h) by now left.
  destruct (String.eqb k ""); reflexivity.
Qed.

Lemma getMarker_listeners (fresh : nat) (options options' : obj)
    (events : list (string * handler)) (m : Marker) (name : string) :
  getMarker fresh options events = Normal (options', m) ->
  filter (named name) (listeners m)
    = match lookup_handler events name with
      | Some h => if String.eqb name "" then [] else [(name, h)]
      | None => []
      end.
Proof.
  unfold getMarker. destruct (normalize_icon options) as [options1|]; [|discriminate].
  simpl. intros H. injection H as _ <-.
  rewrite add_listeners_registrations. simpl.
  rewrite registrations_named by apply own_keys_NoDup.
  destruct (in_dec string_dec name (own_keys events)) as [Hin|Hout].
  - unfold registration.
    destruct (lookup_handler events name); destruct (String.eqb name ""); reflexivity.
  - assert (E : lookup_handler events name = None).
    { destruct (lookup_handler events name) eqn:E; [|reflexivity].
      exfalso. apply Hout. unfold own_keys. apply nodup_In.
      apply handler_In_keys. congruence. }
    now rewrite E.
Qed.

(** X1. Lines 74-81. Every event name of the mapping but the empty one
    is registered on the marker once, with the callback the mapping
    gives it, and nothing else is, whatever the order. For a mapping
    whose names are distinct and start with no digit (none is an array
    index, so the loop visits them as they were added) the listeners
    are its entries in order, the empty name left out. *)
Theorem events_are_registered_once (fresh : nat) (options : obj)
    (events : list (string * handler)) :
  icon_accepted (get_own options "icon") = true ->
  exists options' m,
    getMarker fresh options events = Normal (options', m) /\
    (forall name,
       filter (named name) (listeners m)
         = match lookup_handler events name with
           | Some h => if String.eqb name "" then [] else [(name, h)]
           | None => []
           end) /\
    (NoDup (map fst events) ->
     forallb (fun p => negb (starts_with_digit (fst p))) events = true ->
       listeners m = filter (fun p => negb (String.eqb (fst p) "")) events).
Proof.
  intros Hacc.
  destruct (normalize_icon_completes options Hacc) as (options1 & Hn & _).
  destruct (getMarker_unfold fresh _ _ events Hn) as (m & Hm & _).
  eexists _, m. split; [exact Hm|]. split.
  - intros name. exact (getMarker_listeners _ _ _ _ _ name Hm).
  - intros Hnd _. unfold getMarker in Hm. rewrite Hn in Hm. simpl in Hm.
    injection Hm as <-. rewrite add_listeners_registrations. simpl.
    unfold own_keys. rewrite (nodup_fixed_point string_dec Hnd).
    apply registrations_in_order. intros k h. now apply handler_of_entry.
Qed.

(** X2. Lines 47-69. The factory hands the marker the very options it
    returns, under the identity the SDK gave, and changes no option but
    [icon], [position] and [zIndex]; a position that is a coordinate
    already is kept. *)
Theorem other_options_pass_through (fresh : nat) (options : obj)
    (events : list (string * handler)) :
  icon_accepted (get_own options "icon") = true ->
  exists options' m,
    getMarker fresh options events = Normal (options', m) /\
    values m = options' /\ id m = fresh /\
    (forall k, k <> "icon" -> k <> "position" -> k <> "zIndex" ->
       get_own options' k = get_own options k) /\
    (instanceof_LatLng (get_own options "position") = true ->
       get_own options' "position" = get_own options "position").
Proof.
  intros Hacc.
  destruct (normalize_icon_completes options Hacc) as (options1 & Hn & Hother & _).
  destruct (getMarker_unfold fresh _ _ events Hn) as (m & Hm & Hv & Hid).
  eexists _, m. split; [exact Hm|]. split; [exact Hv|]. split; [exact Hid|]. split.
  - intros k Hi Hp Hz.
    rewrite bridge_zindex_other, default_position_other by congruence.
    now apply Hother.
  - intros Hp. rewrite bridge_zindex_other by discriminate.
    unfold default_position. rewrite Hother by discriminate. rewrite Hp.
    apply Hother. discriminate.
Qed.

(** X3. Lines 65-68. A canonical [zIndex] that is set wins over the
    legacy [zindex], whatever that one holds; with neither set the
    marker has no z-index. *)
Theorem canonical_zIndex_wins (fresh : nat) (options : obj)
    (events : list (string * handler)) :
  icon_accepted (get_own options "icon") = true ->
  exists options' m,
    getMarker fresh options events = Normal (options', m) /\
    (typeof_undefined (get_own options "zIndex") = false ->
       get_own (values m) "zIndex" = get_own options "zIndex") /\
    (typeof_undefined (get_own options "zIndex") = true ->
     typeof_undefined (get_own options "zindex") = true ->
       get_own (values m) "zIndex" = VUndefined).
Proof.
  intros Hacc.
  destruct (normalize_icon_completes options Hacc) as (options1 & Hn & Hother & _).
  destruct (getMarker_unfold fresh _ _ events Hn) as (m & Hm & Hv & _).
  eexists _, m. split; [exact Hm|]. rewrite Hv. unfold bridge_zindex.
  rewrite !default_position_other, !Hother by discriminate.
  split.
  - intros Hz. rewrite Hz. simpl.
    now rewrite default_position_other, Hother by discriminate.
  - intros Hz Hl. rewrite Hz, Hl. simpl.
    rewrite default_position_other, Hother by discriminate.
    now destruct (get_own options "zIndex").
Qed.

(** X4. Lines 47-61. An icon that is no plain object, a URL string or
    an array for instance, or no icon at all, never makes the factory
    raise and reaches the marker as it is. *)
Theorem other_icons_pass_through (fresh : nat) (options : obj)
    (events : list (string * handler)) :
  is_plain_object (get_own options "icon") = false ->
  exists options' m,
    getMarker fresh options events = Normal (options', m) /\
    get_own (values m) "icon" = get_own options "icon".
Proof.
  intros Hplain.
  assert (Hn : normalize_icon options = Normal options).
  { unfold normalize_icon.
    destruct (get_own options "icon"); try discriminate; reflexivity. }
  destruct (getMarker_unfold fresh _ _ events Hn) as (m & Hm & Hv & _).
  eexists _, m. split; [exact Hm|].
  now rewrite Hv, bridge_zindex_other, default_position_other by discriminate.
Qed.

Lemma getMarker_path (fresh : nat) (options icon : obj)
    (events : list (string * handler)) (s : string) :
  get_own options "icon" = VObj icon ->
  icon_accepted (VObj icon) = true ->
  to_string (get_own icon "path") = Normal s ->
  exists options' m icon',
    getMarker fresh options events = Normal (options', m) /\
    get_own (values m) "icon" = VObj icon' /\
    lookup icon' "path"
      = if matches_symbol_name s then Some (get_own SymbolPath s)
        else lookup icon "path".
Proof.
  intros Hicon Hacc Hs.
  destruct (normalize_icon_object options icon Hicon Hacc) as (icon' & Hn & _).
  destruct (getMarker_unfold fresh _ _ events Hn) as (m & Hm & Hv & _).
  eexists _, m, icon'. split; [exact Hm|]. split.
  - rewrite Hv, bridge_zindex_other, default_position_other by discriminate.
    apply get_own_set_same.
  - unfold normalize_icon in Hn. rewrite Hicon in Hn. simpl in Hn.
    rewrite (symbol_path_spec icon s Hs) in Hn. simpl in Hn.
    destruct (for_in _ _) as [icon2|] eqn:Eloop; [|discriminate].
    simpl in Hn. injection Hn as Hn.
    apply (f_equal (fun o => get_own o "icon")) in Hn.
    rewrite !get_own_set_same in Hn. injection Hn as <-.
    rewrite (for_in_untouched _ _ _ "path" Eloop) by (now right).
    destruct (matches_symbol_name s); [apply lookup_set_same | reflexivity].
Qed.

(** X5. Lines 48-50. The path is tested after coercion to a string,
    whatever it is: the icon's path becomes the enumeration's entry
    exactly when the coerced string is made of capital letters and
    underscores. So a one-element array holding such a name is
    substituted like the name itself, and an icon without a path
    (coerced: "undefined") gets none. *)
Theorem path_is_tested_as_a_string (fresh : nat) (options icon : obj)
    (events : list (string * handler)) :
  get_own options "icon" = VObj icon ->
  icon_accepted (VObj icon) = true ->
  exists options' m icon',
    getMarker fresh options events = Normal (options', m) /\
    get_own (values m) "icon" = VObj icon' /\
    (forall s, to_string (get_own icon "path") = Normal s ->
       lookup icon' "path"
         = if matches_symbol_name s then Some (get_own SymbolPath s)
           else lookup icon "path") /\
    (forall s, get_own icon "path" = VArr [VStr s] -> matches_symbol_name s = true ->
       lookup icon' "path" = Some (get_own SymbolPath s)) /\
    (lookup icon "path" = None -> lookup icon' "path" = None).
Proof.
  intros Hicon Hacc.
  pose proof Hacc as Hacc'. simpl in Hacc'.
  do 4 (apply andb_true_iff in Hacc' as [Hacc' _]).
  apply andb_true_iff in Hacc' as [_ Hs].
  destruct (to_string (get_own icon "path")) as [s0|] eqn:Es; [|discriminate].
  destruct (getMarker_path fresh options icon events s0 Hicon Hacc Es)
    as (options' & m & icon' & Hm & Hi & Hp).
  exists options', m, icon'. split; [exact Hm|]. split; [exact Hi|].
  split; [|split].
  - intros s E. injection E as <-. exact Hp.
  - intros s Hpath Hmatch. rewrite Hpath in Es. simpl in Es.
    injection Es as <-. now rewrite Hmatch in Hp.
  - intros Hnone. unfold get_own in Es. rewrite Hnone in Es. simpl in Es.
    injection Es as <-. simpl in Hp. now rewrite Hp.
Qed.

(** X6. Lines 51-60. A sub-field that is a point or a dimension of the
    SDK already has no elements 0 and 1: the factory replaces an
    [anchor] or [origin] given as a point by the point of [undefined]
    and [undefined], and a [size] or [scaledSize] given as a dimension
    by the dimension of [undefined] and [undefined]. *)
Theorem built_values_are_emptied (fresh : nat) (options icon : obj)
    (events : list (string * handler)) :
  get_own options "icon" = VObj icon ->
  icon_accepted (VObj icon) = true ->
  exists options' m icon',
    getMarker fresh options events = Normal (options', m) /\
    get_own (values m) "icon" = VObj icon' /\
    (forall key x y, key = "anchor" \/ key = "origin" ->
       lookup icon key = Some (VPoint x y) ->
       lookup icon' key = Some (VPoint VUndefined VUndefined)) /\
    (forall key w h, key = "size" \/ key = "scaledSize" ->
       lookup icon key = Some (VSize w h) ->
       lookup icon' key = Some (VSize VUndefined VUndefined)).
Proof.
  intros Hicon Hacc.
  destruct (getMarker_icon fresh options icon events Hicon Hacc)
    as (options' & m & icon' & Hm & Hi & _ & Hpt & Hsz & _).
  exists options', m, icon'. split; [exact Hm|]. split; [exact Hi|]. split.
  - intros key x y Hk Hl.
    assert (Hp : is_point_key key = true) by (destruct Hk; subst; reflexivity).
    destruct (Hpt key _ Hp Hl) as (a0 & a1 & H0 & H1 & Hl').
    simpl in H0, H1. injection H0 as <-. injection H1 as <-. exact Hl'.
  - intros key w h Hk Hl.
    assert (Hp : is_size_key key = true) by (destruct Hk; subst; reflexivity).
    destruct (Hsz key _ Hp Hl) as (a0 & a1 & H0 & H1 & Hl').
    simpl in H0, H1. injection H0 as <-. injection H1 as <-. exact Hl'.
Qed.

Lemma field_ok_false (icon : obj) (key : string) :
  field_ok icon key = false <->
  has_key icon key = true /\ nullish (get_own icon key) = true.
Proof.
  unfold field_ok. rewrite negb_false_iff, andb_true_iff. reflexivity.
Qed.

(** X7. Lines 47-61. The factory raises, a [TypeError], exactly for an
    icon object that has a property [hasOwnProperty], or a path that
    cannot be coerced to a string, or [null] or [undefined] under
    [anchor], [origin], [size] or [scaledSize]. *)
Theorem factory_raises_exactly (fresh : nat) (options : obj)
    (events : list (string * handler)) :
  getMarker fresh options events = Throw TypeError <->
  exists icon,
    get_own options "icon" = VObj icon /\
    (has_key icon "hasOwnProperty" = true \/
     to_string (get_own icon "path") = Throw TypeError \/
     exists key, coerced_key key = true /\ has_key icon key = true /\
                 nullish (get_own icon key) = true).
Proof.
  pose proof (getMarker_completes_iff fresh options events) as Hiff.
  split.
  - intros Hthrow. rewrite Hthrow in Hiff. simpl in Hiff. symmetry in Hiff.
    destruct (get_own options "icon") as [ | | b | n | s | l | icon | a b | a b | a b ];
      try discriminate.
    exists icon. split; [reflexivity|]. simpl in Hiff.
    destruct (has_key icon "hasOwnProperty"); [now left|]. right.
    destruct (to_string (get_own icon "path")) as [s|[]]; [|now left]. right.
    simpl in Hiff.
    destruct (field_ok icon "anchor") eqn:E1;
      [|exists "anchor"; apply field_ok_false in E1; tauto].
    destruct (field_ok icon "origin") eqn:E2;
      [|exists "origin"; apply field_ok_false in E2; tauto].
    destruct (field_ok icon "size") eqn:E3;
      [|exists "size"; apply field_ok_false in E3; tauto].
    destruct (field_ok icon "scaledSize") eqn:E4;
      [discriminate|exists "scaledSize"; apply field_ok_false in E4; tauto].
  - intros (icon & Hicon & Hwhy).
    assert (Hacc : icon_accepted (get_own options "icon") = false).
    { rewrite Hicon. simpl. destruct Hwhy as [Hh|[Hs|(key & Hc & Hk & Hn)]].
      - now rewrite Hh.
      - rewrite Hs. simpl. now rewrite andb_false_r.
      - assert (Hf : field_ok icon key = false) by (apply field_ok_false; tauto).
        destruct (coerced_key_cases key Hc) as [ -> | [ -> | [ -> | -> ] ] ];
          rewrite Hf; rewrite ?andb_false_r; reflexivity. }
    rewrite Hacc in Hiff.
    destruct (getMarker fresh options events) as [r|[]]; [discriminate|reflexivity].
Qed.

(** X8. Lines 98-116. Linking raises, a [TypeError], exactly when the
    factory does, or when a custom label is supplied that is [null],
    or is supplied for options without an icon. *)
Theorem linking_raises_exactly (fresh : nat) (options : obj)
    (events : list (string * handler)) (cb : value) :
  linkFunc fresh options events cb = Throw TypeError <->
  getMarker fresh options events = Throw TypeError \/
  (typeof_undefined (get_own options "customlabel") = false /\
   (nullish (get_own options "customlabel") = true \/
    nullish (get_own options "icon") = true)).
Proof.
  pose proof (linkFunc_completes_iff fresh options events cb) as Hl.
  pose proof (getMarker_completes_iff fresh options events) as Hg.
  unfold link_accepted, label_accepted in Hl. rewrite <- Hg in Hl.
  split.
  - intros Hthrow. rewrite Hthrow in Hl. simpl in Hl. symmetry in Hl.
    destruct (getMarker fresh options events) as [r|[]]; [|now left]. right.
    simpl in Hl.
    destruct (typeof_undefined (get_own options "customlabel")); [discriminate|].
    split; [reflexivity|]. simpl in Hl.
    destruct (nullish (get_own options "customlabel")); [now left|]. right.
    simpl in Hl. now apply negb_false_iff in Hl.
  - intros Hwhy.
    assert (Hc : completes (linkFunc fresh options events cb) = false).
    { rewrite Hl. destruct Hwhy as [Hg'|(Ht & Hn)].
      - now rewrite Hg'.
      - rewrite Ht. simpl. destruct Hn as [Hn|Hn]; rewrite Hn; simpl;
          rewrite ?andb_false_r; reflexivity. }
    destruct (linkFunc fresh options events cb) as [d|[]]; [discriminate|reflexivity].
Qed.

(* ================================================================== *)
(** * More of the directive *)

Lemma deletions_filtered (p : effect -> bool) (l : list effect) :
  (forall g o, p (deleteObject g o) = false) ->
  Forall (fun e => is_deleteObject e = true) l -> filter p l = [].
Proof.
  intros Hp. induction 1 as [|e l He _ IH]; simpl; auto.
  destruct e; try discriminate. now rewrite Hp.
Qed.

(** What is asked at linking is asked once: later occurrences add
    zooms, evaluations and deletions only. *)
Lemma run_keeps (p : effect -> bool) (os : list occurrence) (d : directive) :
  p zoomToIncludeMarkers = false ->
  (forall e, p (evaluate e) = false) ->
  (forall g o, p (deleteObject g o) = false) ->
  only_deletions d ->
  filter p (trace (run os d)) = filter p (trace d).
Proof.
  intros Hz He Hdel. revert d.
  induction os as [|o os IH]; intros d Hd; [reflexivity|].
  unfold run in *. simpl. rewrite IH by now apply only_deletions_step.
  destruct o as [lat lng|]; simpl.
  - unfold resolve. destruct (pending d); auto. simpl.
    rewrite !filter_app. simpl. rewrite Hz.
    destruct (truthy (geoCallback d)); simpl; rewrite ?He; now rewrite app_nil_r.
  - rewrite filter_app, (deletions_filtered p _ Hdel Hd). apply app_nil_r.
Qed.

Lemma run_extends (os : list occurrence) (d : directive) :
  exists later, trace (run os d) = (trace d ++ later)%list.
Proof.
  revert d. induction os as [|o os IH]; intros d.
  - exists []. now rewrite app_nil_r.
  - unfold run in *. simpl. destruct (IH (step d o)) as [later ->].
    destruct o as [lat lng|]; simpl.
    + unfold resolve. destruct (pending d); simpl.
      * rewrite <- app_assoc. eauto.
      * eauto.
    + rewrite <- app_assoc. eauto.
Qed.

(** What no occurrence changes. *)
Lemma run_marker (os : list occurrence) (d : directive) :
  id (marker (run os d)) = id (marker d) /\
  listeners (marker (run os d)) = listeners (marker d) /\
  label (run os d) = label d /\
  geoCallback (run os d) = geoCallback d /\
  (forall k, k <> "position" ->
     get_own (values (marker (run os d))) k = get_own (values (marker d)) k) /\
  (instanceof_LatLng (get_own (values (marker d)) "position") = true ->
   instanceof_LatLng (get_own (values (marker (run os d))) "position") = true).
Proof.
  revert d. induction os as [|o os IH]; intros d; [repeat split; auto|].
  unfold run in *. simpl.
  destruct (IH (step d o)) as (-> & -> & -> & -> & Hk & Hp).
  assert (Hstep : id (marker (step d o)) = id (marker d) /\
            listeners (marker (step d o)) = listeners (marker d) /\
            label (step d o) = label d /\
            geoCallback (step d o) = geoCallback d /\
            (forall k, k <> "position" ->
               get_own (values (marker (step d o))) k = get_own (values (marker d)) k) /\
            (instanceof_LatLng (get_own (values (marker d)) "position") = true ->
             instanceof_LatLng (get_own (values (marker (step d o))) "position") = true)).
  { destruct o as [lat lng|]; simpl; [|repeat split; auto].
    unfold resolve. destruct (pending d); simpl; [|repeat split; auto].
    repeat split; auto.
    - intros k Hne. apply get_own_set_other. congruence.
    - intros _. now rewrite get_own_set_same. }
  destruct Hstep as (E1 & E2 & E3 & E4 & E5 & E6).
  repeat split; auto.
  intros k Hne. rewrite Hk by exact Hne. now apply E5.
Qed.

Lemma run_unpending (os : list occurrence) (d : directive) :
  pending d = None -> marker (run os d) = marker d.
Proof.
  revert d. induction os as [|o os IH]; intros d Hp; [reflexivity|].
  unfold run in *. simpl. destruct o as [lat lng|]; simpl.
  - unfold resolve. rewrite Hp. now apply IH.
  - now rewrite IH.
Qed.

(** The element [linkFunc] returns, with the position of its marker. *)
Lemma linkFunc_position (fresh : nat) (options : obj)
    (events : list (string * handler)) (cb : value) :
  link_accepted options = true ->
  exists options' m lbl,
    getMarker fresh options events = Normal (options', m) /\
    id m = fresh /\
    get_own (values m) "position"
      = (if instanceof_LatLng (get_own options "position")
         then get_own options "position" else VLatLng 0 0) /\
    linkFunc fresh options events cb =
      Normal {| marker := m;
                label := lbl;
                trace := ((if truthy (address_of options)
                           then [addObject "markers" fresh;
                                 getGeoLocation (address_of options)]
                           else [addObject "markers" fresh])
                          ++ [observeAttrSetObj fresh])%list;
                pending := if truthy (address_of options)
                           then Some (address_of options) else None;
                geoCallback := cb;
                on_destroy := [deleteObject "markers" fresh] |}.
Proof.
  intros Hacc.
  destruct (linkFunc_accepted fresh options events cb Hacc)
    as (options' & m & lbl & Hm & Hv & Hid & _ & Hlink).
  apply andb_true_iff in Hacc as [Hicon _].
  destruct (getMarker_accepted fresh options events Hicon)
    as (options2 & m2 & Hm2 & _ & _ & _ & _ & Hpos).
  rewrite Hm in Hm2. injection Hm2 as <- <-.
  exists options', m, lbl. rewrite Hv. auto.
Qed.

(** X9. Lines 99 and 131. Whenever linking completes ([link_accepted]),
    it has handed the marker to the controller's ['markers'] collection
    first, before anything else was asked, and has registered the
    observers, each exactly once: no resolution and no destruction ever
    repeats either call. *)
Theorem marker_is_added_once (fresh : nat) (options : obj)
    (events : list (string * handler)) (cb : value) :
  link_accepted options = true ->
  exists d,
    linkFunc fresh options events cb = Normal d /\
    forall os,
      hd_error (trace (run os d)) = Some (addObject "markers" fresh) /\
      filter is_addObject (trace (run os d)) = [addObject "markers" fresh] /\
      filter is_observeAttrSetObj (trace (run os d)) = [observeAttrSetObj fresh].
Proof.
  intros Hacc.
  destruct (linkFunc_position fresh options events cb Hacc)
    as (options' & m & lbl & _ & _ & _ & Hlink).
  eexists. split; [exact Hlink|]. intros os. split; [|split].
  - match goal with |- context [run os ?x] =>
      destruct (run_extends os x) as [later ->] end.
    simpl. now destruct (truthy (address_of options)).
  - rewrite run_keeps; try reflexivity; [|repeat constructor].
    simpl. now destruct (truthy (address_of options)).
  - rewrite run_keeps; try reflexivity; [|repeat constructor].
    simpl. now destruct (truthy (address_of options)).
Qed.

(** X10. Lines 94-97 and 118. A position that is absent, or is [null],
    [false], [0] or the empty string, is never geocoded: the marker
    stays at (0,0) whatever happens later. *)
Theorem falsy_position_stays_at_origin (fresh : nat) (options : obj)
    (events : list (string * handler)) (cb : value) :
  truthy (get_own options "position") = false ->
  link_accepted options = true ->
  exists d,
    linkFunc fresh options events cb = Normal d /\
    forall os,
      get_own (values (marker (run os d))) "position" = VLatLng 0 0 /\
      filter is_getGeoLocation (trace (run os d)) = [].
Proof.
  intros Hfalsy Hacc.
  destruct (linkFunc_position fresh options events cb Hacc)
    as (options' & m & lbl & _ & _ & Hpos & Hlink).
  assert (Hll : instanceof_LatLng (get_own options "position") = false)
    by (destruct (get_own options "position"); try reflexivity; discriminate).
  assert (Ha : truthy (address_of options) = false)
    by (unfold address_of; now rewrite Hll).
  rewrite Ha in Hlink. rewrite Hll in Hpos.
  eexists. split; [exact Hlink|]. intros os. split.
  - rewrite run_unpending by reflexivity. exact Hpos.
  - rewrite run_requests by (repeat constructor). reflexivity.
Qed.

(** X11. Lines 94-97 and 118-119. Whenever linking completes
    ([link_accepted]), a position that is no coordinate and is truthy,
    a string or not (a number, [true], an array), is handed to the
    geocoder as it is, once, and the marker waits at (0,0). *)
Theorem any_truthy_position_is_geocoded (fresh : nat) (options : obj)
    (events : list (string * handler)) (cb : value) :
  instanceof_LatLng (get_own options "position") = false ->
  truthy (get_own options "position") = true ->
  link_accepted options = true ->
  exists d,
    linkFunc fresh options events cb = Normal d /\
    get_own (values (marker d)) "position" = VLatLng 0 0 /\
    pending d = Some (get_own options "position") /\
    forall os, filter is_getGeoLocation (trace (run os d))
               = [getGeoLocation (get_own options "position")].
Proof.
  intros Hll Ht Hacc.
  destruct (linkFunc_position fresh options events cb Hacc)
    as (options' & m & lbl & _ & _ & Hpos & Hlink).
  assert (Ha : address_of options = get_own options "position")
    by (unfold address_of; now rewrite Hll).
  rewrite Ha, Ht in Hlink. rewrite Hll in Hpos.
  eexists. split; [exact Hlink|]. split; [exact Hpos|]. split; [reflexivity|].
  intros os. rewrite run_requests by (repeat constructor). reflexivity.
Qed.

(** X12. Lines 119-125 and 132-134. Destroying the element does not
    cancel the geocoding: a resolution that comes after the marker was
    deleted from the collection still moves the marker, asks for the
    zoom and evaluates the geo-callback. *)
Theorem resolution_outlives_destruction (fresh : nat) (options : obj)
    (events : list (string * handler)) (cb : value) (lat lng : float) :
  instanceof_LatLng (get_own options "position") = false ->
  truthy (get_own options "position") = true ->
  link_accepted options = true ->
  exists d,
    linkFunc fresh options events cb = Normal d /\
    get_own (values (marker (resolve lat lng (destroy d)))) "position"
      = VLatLng lat lng /\
    trace (resolve lat lng (destroy d))
      = (trace d ++ [deleteObject "markers" fresh; zoomToIncludeMarkers]
           ++ (if truthy cb then [evaluate cb] else []))%list.
Proof.
  intros Hll Ht Hacc.
  destruct (linkFunc_position fresh options events cb Hacc)
    as (options' & m & lbl & _ & _ & _ & Hlink).
  assert (Ha : address_of options = get_own options "position")
    by (unfold address_of; now rewrite Hll).
  rewrite Ha, Ht in Hlink.
  eexists. split; [exact Hlink|]. unfold resolve, destroy. simpl. split.
  - apply get_own_set_same.
  - reflexivity.
Qed.

(** X13. Lines 88-135. Whatever happens after linking, the element
    keeps the marker it created, with the listeners and the options it
    was given and the same label; only the position changes, and it is
    a coordinate at every moment. *)
Theorem marker_always_has_a_coordinate (fresh : nat) (options : obj)
    (events : list (string * handler)) (cb : value) :
  link_accepted options = true ->
  exists d,
    linkFunc fresh options events cb = Normal d /\
    forall os,
      id (marker (run os d)) = fresh /\
      listeners (marker (run os d)) = listeners (marker d) /\
      label (run os d) = label d /\
      instanceof_LatLng (get_own (values (marker (run os d))) "position") = true /\
      forall k, k <> "position" ->
        get_own (values (marker (run os d))) k = get_own (values (marker d)) k.
Proof.
  intros Hacc.
  destruct (linkFunc_position fresh options events cb Hacc)
    as (options' & m & lbl & _ & Hid & Hpos & Hlink).
  eexists. split; [exact Hlink|]. intros os.
  match goal with |- context [run os ?x] =>
    destruct (run_marker os x) as (E1 & E2 & E3 & _ & E5 & E6) end.
  simpl in *. rewrite E1, E2, E3. repeat split; auto.
  apply E6. rewrite Hpos.
  destruct (instanceof_LatLng (get_own options "position")) eqn:E; auto.
Qed.

(** X14. Lines 103-115. The label of an element names the marker the
    element created and follows its position; it takes the text of the
    custom label as it is, and every truthy colour, opacity and weight
    of the custom label unchanged. *)
Theorem truthy_label_fields_pass_through (fresh : nat) (options customlabel : obj)
    (events : list (string * handler)) (cb : value) :
  get_own options "customlabel" = VObj customlabel ->
  link_accepted options = true ->
  exists d l,
    linkFunc fresh options events cb = Normal d /\ label d = Some l /\
    label_marker l = fresh /\ position_bound_to l = fresh /\
    get_own (label_values l) "text" = get_own customlabel "text" /\
    forall k,
      In k ["color"; "fillColor"; "fillOpacity"; "strokeColor"; "strokeWeight"] ->
      truthy (get_own customlabel k) = true ->
      get_own (label_values l) k = get_own customlabel k.
Proof.
  intros Hcl Hacc.
  destruct (linkFunc_accepted fresh options events cb Hacc)
    as (options' & m & lbl & _ & _ & Hid & Hlbl & Hlink).
  rewrite Hcl in Hlbl. simpl in Hlbl. destruct Hlbl as (l & -> & Hl).
  unfold new_MarkerLabel in Hl. simpl in Hl.
  destruct (get_field (get_own (values m) "icon") "fillColor") as [iconFill|];
    [|discriminate].
  simpl in Hl. injection Hl as <-.
  eexists _, _. split; [exact Hlink|]. split; [reflexivity|].
  cbn [marker label_values label_marker position_bound_to].
  split; [exact Hid|]. split; [exact Hid|]. split; [now read_own|].
  intros k Hk Ht. simpl in Hk.
  destruct Hk as [<-|[<-|[<-|[<-|[<-|[]]]]]]; read_own; unfold js_or; now rewrite Ht.
Qed.

(** X15. Lines 74-81 and 152-155. A click on the label runs what a
    click on the marker runs: the callback the events mapping gives to
    [click], once, and nothing when it gives none. *)
Theorem label_click_is_a_marker_click (fresh : nat) (options : obj)
    (events : list (string * handler)) (cb : value) :
  link_accepted options = true ->
  exists d,
    linkFunc fresh options events cb = Normal d /\
    forall os,
      click_label (run os d)
        = match lookup_handler events "click" with
          | Some h => [h]
          | None => []
          end.
Proof.
  intros Hacc.
  destruct (linkFunc_position fresh options events cb Hacc)
    as (options' & m & lbl & Hm & _ & _ & Hlink).
  eexists. split; [exact Hlink|]. intros os.
  unfold click_label, trigger.
  match goal with |- context [run os ?x] =>
    destruct (run_marker os x) as (_ & -> & _) end.
  cbn [marker].
  change (fun p : string * handler => String.eqb (fst p) "click") with (named "click").
  rewrite (getMarker_listeners _ _ _ _ _ "click" Hm).
  now destruct (lookup_handler events "click").
Qed.

(** X16. Lines 115, 119-121 and 183. The label is drawn where the
    marker is: at the coordinate of the options at every moment; for
    any other position at (0,0) until the geocoder resolves and at the
    resolved coordinate ever after. *)
Theorem label_is_drawn_where_the_marker_is (fresh : nat) (options : obj)
    (events : list (string * handler)) (cb : value) :
  link_accepted options = true ->
  exists d,
    linkFunc fresh options events cb = Normal d /\
    (forall lat lng, get_own options "position" = VLatLng lat lng ->
       forall os proj o,
         draw_label proj (run os d) o = draw proj (VLatLng lat lng) o) /\
    (instanceof_LatLng (get_own options "position") = false ->
       forall proj o, draw_label proj d o = draw proj (VLatLng 0 0) o) /\
    (instanceof_LatLng (get_own options "position") = false ->
     truthy (get_own options "position") = true ->
       forall lat lng os proj o,
         draw_label proj (run os (resolve lat lng d)) o
           = draw proj (VLatLng lat lng) o).
Proof.
  intros Hacc.
  destruct (linkFunc_position fresh options events cb Hacc)
    as (options' & m & lbl & _ & _ & Hpos & Hlink).
  eexists. split; [exact Hlink|]. unfold draw_label. split; [|split].
  - intros lat lng Hp os proj o.
    rewrite run_unpending.
    + cbn [marker]. rewrite Hpos, Hp. reflexivity.
    + cbn [pending]. unfold address_of. rewrite Hp. reflexivity.
  - intros Hll proj o. cbn [marker]. rewrite Hpos, Hll. reflexivity.
  - intros Hll Ht lat lng os proj o.
    assert (Ha : truthy (address_of options) = true)
      by (unfold address_of; now rewrite Hll).
    rewrite run_unpending.
    + unfold resolve. cbn [pending]. rewrite Ha. cbn [marker setPosition values].
      now rewrite get_own_set_same.
    + unfold resolve. cbn [pending]. rewrite Ha. reflexivity.
Qed.

(* ================================================================== *)
(** * The overlay: attaching and detaching *)

Lemma removeListener_below (reg : list (nat * string)) (n h : nat) :
  Forall (fun p => fst p < n) reg -> n <= h -> removeListener reg h = reg.
Proof.
  intros Hreg Hle. unfold removeListener.
  induction Hreg as [|p reg Hp _ IH]; simpl; [reflexivity|].
  rewrite IH. destruct (Nat.eqb_spec (fst p) h); [lia | reflexivity].
Qed.

Lemma removeListener_app (older rest : list (nat * string)) (n h : nat) :
  Forall (fun p => fst p < n) older -> n <= h ->
  removeListener (older ++ rest)%list h = (older ++ removeListener rest h)%list.
Proof.
  intros Hold Hle. unfold removeListener at 1. rewrite filter_app.
  fold (removeListener older h). fold (removeListener rest h).
  now rewrite (removeListener_below older n h).
Qed.

Lemma three_listeners_removed (n : nat) :
  removeListener (removeListener (removeListener (three_listeners n) n) (S n))
    (S (S n)) = [].
Proof.
  assert (E1 : Nat.eqb (S n) n = false) by (apply Nat.eqb_neq; lia).
  assert (E2 : Nat.eqb (S (S n)) n = false) by (apply Nat.eqb_neq; lia).
  assert (E3 : Nat.eqb (S (S n)) (S n) = false) by (apply Nat.eqb_neq; lia).
  unfold removeListener, three_listeners.
  cbn [filter fst]. rewrite Nat.eqb_refl, E1, E2. cbn [negb filter fst].
  rewrite Nat.eqb_refl, E3. cbn [negb filter fst].
  rewrite Nat.eqb_refl. reflexivity.
Qed.

Lemma remove_three_listeners (older : list (nat * string)) (n : nat) :
  Forall (fun p => fst p < n) older ->
  fold_left removeListener [n; S n; S (S n)] (older ++ three_listeners n)%list = older.
Proof.
  intros Hold. cbn [fold_left].
  rewrite (removeListener_app older _ n n) by auto.
  rewrite (removeListener_app older _ n (S n)) by auto.
  rewrite (removeListener_app older _ n (S (S n))) by auto.
  rewrite three_listeners_removed. apply app_nil_r.
Qed.

Lemma well_kept_construct (l : MarkerLabel) : well_kept (construct l).
Proof. split; [constructor | intros H; now contradiction H]. Qed.

Lemma well_kept_onAdd (o : Overlay) : well_kept o -> well_kept (onAdd o).
Proof.
  intros [Hbelow _]. split.
  - simpl. apply Forall_app. split.
    + eapply Forall_impl; [|exact Hbelow]. simpl. intros p Hp. lia.
    + repeat constructor; simpl; lia.
  - intros _. exists (registered o), (next_listener o). repeat split; auto.
Qed.

Lemma onRemove_attached (o : Overlay) :
  well_kept o -> parentNode (div o) <> None ->
  exists older n o',
    onRemove o = Normal o' /\
    registered o = (older ++ three_listeners n)%list /\
    registered o' = older /\
    parentNode (div o') = None /\
    holds (div o') = holds (div o) /\ style (div o') = style (div o) /\
    settings o' = settings o /\ next_listener o' = next_listener o /\
    well_kept o'.
Proof.
  intros [Hbelow Hatt] Hp.
  destruct (Hatt Hp) as (older & n & Hreg & Hnext & Hthis & Hold).
  exists older, n. unfold onRemove.
  destruct (parentNode (div o)); [|now contradiction Hp].
  rewrite Hthis, Hreg, (remove_three_listeners older n Hold).
  eexists. split; [reflexivity|]. simpl. repeat split; auto.
  - rewrite Hnext. eapply Forall_impl; [|exact Hold]. simpl. intros p Hlt. lia.
  - intros H. now contradiction H.
Qed.

Lemma draw_keeps (proj : projection) (position : value) (o o' : Overlay) :
  draw proj position o = Normal o' ->
  settings o' = settings o /\ parentNode (div o') = parentNode (div o) /\
  registered o' = registered o /\ this_listeners o' = this_listeners o /\
  next_listener o' = next_listener o.
Proof.
  unfold draw. intros H.
  destruct proj as [f|]; [|discriminate]. simpl in H.
  destruct (get_field _ "x") as [x|]; [|discriminate]. simpl in H.
  destruct (to_string x) as [sx|]; [|discriminate]. simpl in H.
  destruct (get_field _ "y") as [y|]; [|discriminate]. simpl in H.
  destruct (to_string y) as [sy|]; [|discriminate]. simpl in H.
  destruct (method_toString _) as [text|]; [|discriminate]. simpl in H.
  injection H as <-. repeat split.
Qed.

Lemma well_kept_step (o o' : Overlay) (c : overlay_call) :
  well_kept o -> overlay_step o c = Normal o' ->
  well_kept o' /\ settings o' = settings o /\
  length (registered o') + (if is_onRemove c then 3 else 0)
    = length (registered o) + (if is_onAdd c then 3 else 0).
Proof.
  intros Hk Hstep. destruct c as [ | |proj position]; simpl in Hstep.
  - injection Hstep as <-. split; [now apply well_kept_onAdd|]. split; [reflexivity|].
    simpl. rewrite length_app. simpl. lia.
  - assert (Hp : parentNode (div o) <> None).
    { unfold onRemove in Hstep. destruct (parentNode (div o)); [discriminate|discriminate]. }
    destruct (onRemove_attached o Hk Hp)
      as (older & n & o2 & Hrem & Hreg & Hreg' & _ & _ & _ & Hset & _ & Hk').
    rewrite Hrem in Hstep. injection Hstep as <-.
    split; [exact Hk'|]. split; [exact Hset|].
    rewrite Hreg, Hreg', length_app. simpl. lia.
  - destruct (draw_keeps proj position o o' Hstep) as (Hs & Hp & Hr & Ht & Hn).
    split; [|split; [exact Hs|simpl; rewrite Hr; lia]].
    destruct Hk as [Hbelow Hatt]. split.
    + now rewrite Hr, Hn.
    + rewrite Hp, Hr, Hn, Ht. exact Hatt.
Qed.

Lemma well_kept_run (cs : list overlay_call) (o o' : Overlay) :
  well_kept o -> overlay_run cs o = Normal o' ->
  well_kept o' /\ settings o' = settings o /\
  length (registered o') + 3 * length (filter is_onRemove cs)
    = length (registered o) + 3 * length (filter is_onAdd cs).
Proof.
  revert o. induction cs as [|c cs IH]; cbn [overlay_run filter]; intros o Hk Hrun.
  - injection Hrun as Heq. subst o'. split; [exact Hk|]. split; reflexivity.
  - destruct (overlay_step o c) as [o1|] eqn:Estep; [|discriminate].
    cbn [bind] in Hrun.
    destruct (well_kept_step o o1 c Hk Estep) as (Hk1 & Hs1 & Hl1).
    destruct (IH o1 Hk1 Hrun) as (Hk' & Hs' & Hl').
    split; [exact Hk'|]. split; [congruence|].
    destruct (is_onRemove c), (is_onAdd c); cbn [length]; lia.
Qed.

(** X17. Lines 162-178. Each [onAdd] registers three listeners and each
    [onRemove] that completes removes three: after calls that all
    completed, none raising, the listeners the SDK still holds are
    three for every [onAdd] that no [onRemove] answered. With as many of
    the one as of the other, none is left; an [onAdd] on a label that is
    attached already leaves its three behind for good. *)
Theorem listeners_are_balanced (l : MarkerLabel) (cs : list overlay_call)
    (o : Overlay) :
  overlay_run cs (construct l) = Normal o ->
  length (registered o) + 3 * length (filter is_onRemove cs)
    = 3 * length (filter is_onAdd cs) /\
  (length (filter is_onAdd cs) = length (filter is_onRemove cs) ->
     registered o = []).
Proof.
  intros Hrun.
  destruct (well_kept_run cs _ _ (well_kept_construct l) Hrun) as (_ & _ & Hlen).
  simpl in Hlen. split; [exact Hlen|].
  intros Heq. destruct (registered o); [reflexivity|]. simpl in Hlen. lia.
Qed.

(** X18. Lines 173-178. [onRemove] raises, a [TypeError], exactly when
    the container of the label is in no pane: on a label that was never
    added, and on one that was removed and not added again. *)
Theorem onRemove_needs_a_pane (l : MarkerLabel) (cs : list overlay_call)
    (o : Overlay) :
  overlay_run cs (construct l) = Normal o ->
  (onRemove o = Throw TypeError <-> parentNode (div o) = None) /\
  (forall o', onRemove o = Normal o' -> onRemove o' = Throw TypeError) /\
  onRemove (construct l) = Throw TypeError.
Proof.
  intros Hrun.
  destruct (well_kept_run cs _ _ (well_kept_construct l) Hrun) as (Hk & _).
  split; [|split; [|reflexivity]].
  - split.
    + intros Hthrow. destruct (parentNode (div o)) eqn:Ep; [|reflexivity].
      assert (Hp : parentNode (div o) <> None) by congruence.
      destruct (onRemove_attached o Hk Hp) as (? & ? & ? & Hrem & _).
      congruence.
    + intros Hp. unfold onRemove. now rewrite Hp.
  - intros o' Hrem.
    assert (Hp : parentNode (div o) <> None).
    { unfold onRemove in Hrem. destruct (parentNode (div o)); [discriminate|discriminate]. }
    destruct (onRemove_attached o Hk Hp) as (? & ? & o2 & Hrem2 & _ & _ & Hnone & _).
    rewrite Hrem in Hrem2. injection Hrem2 as <-.
    unfold onRemove. now rewrite Hnone.
Qed.

(** X19. Lines 162-178. Adding the label to a map and removing it
    again gives back what was there: the container is out of the pane
    with its content and style untouched, and the SDK holds exactly the
    listeners it held before. *)
Theorem onAdd_onRemove_round_trip (l : MarkerLabel) (cs : list overlay_call)
    (o : Overlay) :
  overlay_run cs (construct l) = Normal o ->
  exists o',
    onRemove (onAdd o) = Normal o' /\
    registered o' = registered o /\
    parentNode (div o') = None /\
    holds (div o') = holds (div o) /\
    style (div o') = style (div o) /\
    settings o' = settings o.
Proof.
  intros Hrun.
  destruct (well_kept_run cs _ _ (well_kept_construct l) Hrun) as (Hk & _).
  assert (Hp : parentNode (div (onAdd o)) <> None) by discriminate.
  destruct (onRemove_attached (onAdd o) (well_kept_onAdd o Hk) Hp)
    as (older & n & o' & Hrem & Hreg & Hreg' & Hnone & Hh & Hst & Hset & _).
  exists o'. split; [exact Hrem|]. repeat split; auto.
  rewrite Hreg'. simpl in Hreg.
  destruct Hk as [Hbelow _].
  assert (Hlen : length (registered o) = length older).
  { apply (f_equal (@length _)) in Hreg. rewrite !length_app in Hreg.
    simpl in Hreg. lia. }
  apply (f_equal (firstn (length older))) in Hreg.
  rewrite <- Hlen in Hreg at 1.
  rewrite firstn_app, Nat.sub_diag, firstn_all in Hreg. simpl in Hreg.
  rewrite app_nil_r in Hreg. rewrite Hreg.
  rewrite firstn_app, Nat.sub_diag, firstn_all. simpl. now rewrite app_nil_r.
Qed.

(* ================================================================== *)
(** * The overlay: drawing *)

Lemma set_prop_same (o : obj) (k : string) (v : value) :
  lookup o k = Some v -> set_prop o k v = o.
Proof.
  induction o as [|[k' v'] rest IH]; simpl; [discriminate|].
  destruct (String.eqb k' k); intros H.
  - now injection H as ->.
  - now rewrite IH.
Qed.

Lemma assign_other (l : list (string * value)) (st : obj) (k : string) :
  ~ In k (map fst l) -> lookup (fold_left assign l st) k = lookup st k.
Proof.
  revert st. induction l as [|[k' v'] rest IH]; simpl; intros st Hk; [reflexivity|].
  rewrite IH by tauto. unfold assign. simpl. apply lookup_set_other. tauto.
Qed.

Lemma assign_read (l : list (string * value)) (st : obj) (k : string) (v : value) :
  NoDup (map fst l) -> In (k, v) l -> lookup (fold_left assign l st) k = Some v.
Proof.
  revert st. induction l as [|[k' v'] rest IH]; simpl; intros st Hnd Hin; [contradiction|].
  inversion Hnd as [|? ? Hnotin Hnd']; subst. destruct Hin as [E|Hin].
  - injection E as -> ->. rewrite assign_other by exact Hnotin.
    apply lookup_set_same.
  - now apply IH.
Qed.

Lemma assign_again (l : list (string * value)) (st : obj) :
  (forall k v, In (k, v) l -> lookup st k = Some v) -> fold_left assign l st = st.
Proof.
  induction l as [|[k v] rest IH]; simpl; intros H; [reflexivity|].
  unfold assign at 2. simpl. rewrite set_prop_same by (apply H; now left).
  apply IH. intros k' v' Hin. apply H. now right.
Qed.

Lemma draw_unfold (fromLatLngToDivPixel : value -> value) (position : value)
    (o : Overlay) (x y : value) (sx sy text : string) :
  get_field (fromLatLngToDivPixel position) "x" = Normal x ->
  to_string x = Normal sx ->
  get_field (fromLatLngToDivPixel position) "y" = Normal y ->
  to_string y = Normal sy ->
  method_toString (get_own (label_values (settings o)) "text") = Normal text ->
  draw (Some fromLatLngToDivPixel) position o =
    Normal {| settings := settings o;
              div := {| className := className (div o);
                        holds := markup text;
                        parentNode := parentNode (div o);
                        style :=
                          fold_left assign
                            [("left", VStr (sx ++ "px"));
                             ("top", VStr (sy ++ "px"));
                             ("display", VStr "block");
                             ("z-index", get_own (label_values (settings o)) "zIndex");
                             ("background-color",
                              get_own (label_values (settings o)) "fillColor");
                             ("color", get_own (label_values (settings o)) "color");
                             ("border-color",
                              get_own (label_values (settings o)) "color");
                             ("opacity",
                              get_own (label_values (settings o)) "fillOpacity");
                             ("stroke",
                              get_own (label_values (settings o)) "strokeColor");
                             ("stroke-width",
                              get_own (label_values (settings o)) "strokeWeight")]
                            (style (div o)) |};
              this_listeners := this_listeners o;
              registered := registered o;
              next_listener := next_listener o |}.
Proof.
  intros Hx Hsx Hy Hsy Ht. unfold draw. cbn [bind].
  rewrite Hx. cbn [bind]. rewrite Hsx. cbn [bind].
  rewrite Hy. cbn [bind]. rewrite Hsy. cbn [bind]. now rewrite Ht.
Qed.

Lemma draw_inversion (proj : projection) (position : value) (o o' : Overlay) :
  draw proj position o = Normal o' ->
  exists fromLatLngToDivPixel x y sx sy text,
    proj = Some fromLatLngToDivPixel /\
    get_field (fromLatLngToDivPixel position) "x" = Normal x /\
    to_string x = Normal sx /\
    get_field (fromLatLngToDivPixel position) "y" = Normal y /\
    to_string y = Normal sy /\
    method_toString (get_own (label_values (settings o)) "text") = Normal text.
Proof.
  unfold draw. intros H.
  destruct proj as [f|]; [|discriminate]. cbn [bind] in H.
  destruct (get_field _ "x") as [x|] eqn:Ex; [|discriminate]. simpl in H.
  destruct (to_string x) as [sx|] eqn:Esx; [|discriminate]. simpl in H.
  destruct (get_field _ "y") as [y|] eqn:Ey; [|discriminate]. simpl in H.
  destruct (to_string y) as [sy|] eqn:Esy; [|discriminate]. simpl in H.
  destruct (method_toString _) as [text|] eqn:Et; [|discriminate].
  exists f, x, y, sx, sy, text. repeat split; assumption.
Qed.

Lemma drawn_properties_NoDup : NoDup drawn_properties.
Proof.
  unfold drawn_properties.
  repeat (constructor; [simpl; intuition discriminate|]). constructor.
Qed.

Lemma drawn_read (l : list (string * value)) (st : obj) (k : string) (v : value) :
  map fst l = drawn_properties -> In (k, v) l ->
  get_own (fold_left assign l st) k = v.
Proof.
  intros Hl Hin. unfold get_own. rewrite (assign_read l st k v); auto.
  rewrite Hl. apply drawn_properties_NoDup.
Qed.

(** X20. Lines 106 and 195. A custom label without a text, or with a
    [null] one, links like any other, but its label cannot be drawn:
    every [draw] raises a [TypeError], whatever was called before. *)
Theorem label_without_text_is_never_drawn (fresh : nat) (options customlabel : obj)
    (events : list (string * handler)) (cb : value) :
  get_own options "customlabel" = VObj customlabel ->
  nullish (get_own customlabel "text") = true ->
  link_accepted options = true ->
  exists d l,
    linkFunc fresh options events cb = Normal d /\ label d = Some l /\
    forall cs o proj position,
      overlay_run cs (construct l) = Normal o ->
      draw proj position o = Throw TypeError.
Proof.
  intros Hcl Htext Hacc.
  destruct (linkFunc_accepted fresh options events cb Hacc)
    as (options' & m & lbl & _ & _ & _ & Hlbl & Hlink).
  rewrite Hcl in Hlbl. simpl in Hlbl. destruct Hlbl as (l & -> & Hl).
  eexists _, l. split; [exact Hlink|]. split; [reflexivity|].
  intros cs o proj position Hrun.
  destruct (well_kept_run cs _ _ (well_kept_construct l) Hrun) as (_ & Hset & _).
  simpl in Hset.
  assert (Ht : get_own (label_values l) "text" = get_own customlabel "text").
  { unfold new_MarkerLabel in Hl. simpl in Hl.
    destruct (get_field (get_own (values m) "icon") "fillColor"); [|discriminate].
    simpl in Hl. injection Hl as <-. cbn [label_values]. now read_own. }
  unfold draw. rewrite Hset, Ht. unfold method_toString. rewrite Htext.
  destruct proj as [f|]; [|reflexivity]. cbn [bind].
  destruct (get_field _ "x") as [x|[]]; simpl; auto.
  destruct (to_string x) as [sx|[]]; simpl; auto.
  destruct (get_field _ "y") as [y|[]]; simpl; auto.
  destruct (to_string y) as [sy|[]]; simpl; auto.
Qed.

(** X21. Lines 181-197. On a map, when the projection gives a pixel and
    the text has a string form, [draw] completes: it puts the container at that
    pixel, shows it, takes z-index, colours, opacity and stroke from
    the values of the label (the background from [fillColor], text and
    border from [color]), and replaces what the container held, the
    [span] of the constructor included, by the text. It touches no
    other style property, no listener and not the pane. *)
Theorem draw_writes_the_container (fromLatLngToDivPixel : value -> value)
    (position : value) (o : Overlay) (x y : value) (sx sy text : string) :
  get_field (fromLatLngToDivPixel position) "x" = Normal x ->
  to_string x = Normal sx ->
  get_field (fromLatLngToDivPixel position) "y" = Normal y ->
  to_string y = Normal sy ->
  method_toString (get_own (label_values (settings o)) "text") = Normal text ->
  exists o',
    draw (Some fromLatLngToDivPixel) position o = Normal o' /\
    get_own (style (div o')) "left" = VStr (sx ++ "px") /\
    get_own (style (div o')) "top" = VStr (sy ++ "px") /\
    get_own (style (div o')) "display" = VStr "block" /\
    get_own (style (div o')) "z-index" = get_own (label_values (settings o)) "zIndex" /\
    get_own (style (div o')) "background-color"
      = get_own (label_values (settings o)) "fillColor" /\
    get_own (style (div o')) "color" = get_own (label_values (settings o)) "color" /\
    get_own (style (div o')) "border-color"
      = get_own (label_values (settings o)) "color" /\
    get_own (style (div o')) "opacity"
      = get_own (label_values (settings o)) "fillOpacity" /\
    get_own (style (div o')) "stroke"
      = get_own (label_values (settings o)) "strokeColor" /\
    get_own (style (div o')) "stroke-width"
      = get_own (label_values (settings o)) "strokeWeight" /\
    holds (div o') = markup text /\
    (forall k, ~ In k drawn_properties ->
       get_own (style (div o')) k = get_own (style (div o)) k) /\
    parentNode (div o') = parentNode (div o) /\
    registered o' = registered o /\
    this_listeners o' = this_listeners o /\
    settings o' = settings o.
Proof.
  intros Hx Hsx Hy Hsy Ht.
  eexists.
  split; [exact (draw_unfold _ position o x y sx sy text Hx Hsx Hy Hsy Ht)|].
  cbn [div style holds parentNode registered this_listeners settings].
  do 10 (split; [apply drawn_read; [reflexivity | simpl; tauto]|]).
  split; [reflexivity|]. split; [|repeat split].
  intros k Hk. unfold get_own. now rewrite assign_other.
Qed.

(** X22. Lines 113 and 181-197. The [backgroundColor] that linking
    computes from the icon's fill colour is never drawn: two labels
    that differ in it alone are drawn alike. *)
Theorem backgroundColor_is_never_drawn (proj : projection) (position : value)
    (o1 o2 : Overlay) :
  (forall k, k <> "backgroundColor" ->
     get_own (label_values (settings o1)) k = get_own (label_values (settings o2)) k) ->
  div o1 = div o2 ->
  match draw proj position o1, draw proj position o2 with
  | Normal a, Normal b => div a = div b
  | Throw _, Throw _ => True
  | _, _ => False
  end.
Proof.
  intros Hsame Hdiv. unfold draw.
  rewrite !Hsame by discriminate. rewrite Hdiv.
  destruct proj as [f|]; simpl; auto.
  destruct (get_field _ "x") as [x|]; simpl; auto.
  destruct (to_string x) as [sx|]; simpl; auto.
  destruct (get_field _ "y") as [y|]; simpl; auto.
  destruct (to_string y) as [sy|]; simpl; auto.
  destruct (method_toString _) as [text|]; simpl; auto.
Qed.

(** X23. Lines 181-197. Drawing again without a change in between
    changes nothing: a second [draw] at the same position completes
    and leaves the label as the first left it. *)
Theorem draw_twice_is_draw_once (proj : projection) (position : value)
    (o o' : Overlay) :
  draw proj position o = Normal o' -> draw proj position o' = Normal o'.
Proof.
  intros Hdraw.
  destruct (draw_inversion proj position o o' Hdraw)
    as (f & x & y & sx & sy & text & -> & Hx & Hsx & Hy & Hsy & Ht).
  rewrite (draw_unfold f position o x y sx sy text Hx Hsx Hy Hsy Ht) in Hdraw.
  apply (f_equal (fun r => match r with Normal a => a | Throw _ => o end)) in Hdraw.
  cbv beta iota in Hdraw. subst o'.
  match goal with |- draw _ _ ?o1 = _ =>
    rewrite (draw_unfold f position o1 x y sx sy text Hx Hsx Hy Hsy Ht) end.
  cbn [settings div className holds parentNode style this_listeners registered
       next_listener].
  rewrite assign_again; [reflexivity|].
  intros k v Hin. apply assign_read; [apply drawn_properties_NoDup | exact Hin].
Qed.

End Factory.

(* ================================================================== *)
(** * The properties at concrete options *)

Example circle_is_looked_up :
  exists m,
    getMarker SymbolPath_enum render_number 0
      [("icon", VObj [("path", VStr "CIRCLE"); ("scale", VNum 10)])] [("click", 1)]
    = Normal ([("icon", VObj [("path", VNum 0); ("scale", VNum 10)]);
               ("position", VLatLng 0 0)], m) /\
    listeners m = [("click", 1)].
Proof. eexists. split; reflexivity. Qed.

Example unknown_symbol_is_undefined :
  forall o m,
    getMarker SymbolPath_enum render_number 0 [("icon", VObj [("path", VStr "FOO")])] []
      = Normal (o, m) ->
    get_own (values m) "icon" = VObj [("path", VUndefined)].
Proof. intros o m H. injection H as <- <-. reflexivity. Qed.

Lemma position_defaults_to_origin_witness :
  let options := [("position", VStr "the cn tower"); ("title", VStr "CN")] in
  instanceof_LatLng (get_own options "position") = false /\
  icon_accepted render_number (get_own options "icon") = true /\
  exists options' m,
    getMarker SymbolPath_enum render_number 0 options [] = Normal (options', m) /\
    get_own (values m) "position" = VLatLng 0 0.
Proof.
  split; [reflexivity|]. split; [reflexivity|].
  apply (position_defaults_to_origin SymbolPath_enum render_number 0
           [("position", VStr "the cn tower"); ("title", VStr "CN")] []);
    reflexivity.
Defined.

Lemma legacy_zindex_is_bridged_witness :
  let options := [("position", VLatLng 40.74 (-74.18)); ("zindex", VNum 5)] in
  typeof_undefined (get_own options "zIndex") = true /\
  get_own options "zindex" = VNum 5 /\
  typeof_undefined (VNum 5) = false /\
  icon_accepted render_number (get_own options "icon") = true /\
  exists options' m,
    getMarker SymbolPath_enum render_number 0 options [] = Normal (options', m) /\
    get_own (values m) "zIndex" = VNum 5.
Proof.
  repeat (split; [reflexivity|]).
  apply (legacy_zindex_is_bridged SymbolPath_enum render_number 0
           [("position", VLatLng 40.74 (-74.18)); ("zindex", VNum 5)] [] (VNum 5));
    reflexivity.
Defined.

Lemma symbol_path_is_substituted_witness :
  let icon := [("path", VStr "FORWARD_OPEN_ARROW"); ("scale", VNum 3)] in
  let options := [("icon", VObj icon)] in
  get_own options "icon" = VObj icon /\
  get_own icon "path" = VStr "FORWARD_OPEN_ARROW" /\
  icon_accepted render_number (VObj icon) = true /\
  exists options' m icon',
    getMarker SymbolPath_enum render_number 0 options [] = Normal (options', m) /\
    get_own (values m) "icon" = VObj icon' /\
    (matches_symbol_name "FORWARD_OPEN_ARROW" = true ->
       get_own icon' "path" = get_own SymbolPath_enum "FORWARD_OPEN_ARROW") /\
    (matches_symbol_name "FORWARD_OPEN_ARROW" = false ->
       get_own icon' "path" = VStr "FORWARD_OPEN_ARROW").
Proof.
  repeat (split; [reflexivity|]).
  apply (symbol_path_is_substituted SymbolPath_enum render_number 0
           [("icon", VObj [("path", VStr "FORWARD_OPEN_ARROW"); ("scale", VNum 3)])]
           [("path", VStr "FORWARD_OPEN_ARROW"); ("scale", VNum 3)] []
           "FORWARD_OPEN_ARROW");
    reflexivity.
Defined.

Lemma pairs_become_points_and_sizes_witness :
  let icon := [("url", VStr "pin.png"); ("anchor", VArr [VNum 16; VNum 32]);
               ("size", VArr [VNum 32; VNum 32])] in
  let options := [("icon", VObj icon)] in
  get_own options "icon" = VObj icon /\
  icon_accepted render_number (VObj icon) = true /\
  lookup icon "anchor" = Some (VArr [VNum 16; VNum 32]) /\
  lookup icon "size" = Some (VArr [VNum 32; VNum 32]) /\
  exists options' m icon',
    getMarker SymbolPath_enum render_number 0 options [] = Normal (options', m) /\
    get_own (values m) "icon" = VObj icon' /\
    (forall key x y, key = "anchor" \/ key = "origin" ->
       lookup icon key = Some (VArr [VNum x; VNum y]) ->
       exists p, lookup icon' key = Some p /\ p = VPoint (VNum x) (VNum y) /\
                 get_field p "x" = Normal (VNum x) /\
                 get_field p "y" = Normal (VNum y)) /\
    (forall key w h, key = "size" \/ key = "scaledSize" ->
       lookup icon key = Some (VArr [VNum w; VNum h]) ->
       exists d, lookup icon' key = Some d /\ d = VSize (VNum w) (VNum h) /\
                 get_field d "width" = Normal (VNum w) /\
                 get_field d "height" = Normal (VNum h)).
Proof.
  repeat (split; [reflexivity|]).
  apply (pairs_become_points_and_sizes SymbolPath_enum render_number 0
           [("icon", VObj [("url", VStr "pin.png"); ("anchor", VArr [VNum 16; VNum 32]);
                           ("size", VArr [VNum 32; VNum 32])])]
           [("url", VStr "pin.png"); ("anchor", VArr [VNum 16; VNum 32]);
            ("size", VArr [VNum 32; VNum 32])] []);
    reflexivity.
Defined.

(** An [anchor] that is no two-element pair is replaced all the same. *)
Lemma malformed_anchor_is_replaced :
  let icon := [("url", VStr "pin.png"); ("anchor", VArr [VNum 16])] in
  numeric_pair (get_own icon "anchor") = false /\
  exists options' m icon',
    getMarker SymbolPath_enum render_number 0 [("icon", VObj icon)] []
      = Normal (options', m) /\
    get_own (values m) "icon" = VObj icon' /\
    get_own icon' "anchor" = VPoint (VNum 16) VUndefined /\
    get_own icon' "anchor" <> get_own icon "anchor".
Proof.
  split; [reflexivity|]. eexists _, _, _.
  split; [reflexivity|]. split; [reflexivity|]. split; [reflexivity|].
  discriminate.
Qed.

Lemma icon_fields_coerced_whatever_shape_witness :
  let icon := [("url", VStr "pin.png"); ("anchor", VArr [VNum 16]);
               ("scaledSize", VStr "32")] in
  let options := [("icon", VObj icon)] in
  get_own options "icon" = VObj icon /\
  icon_accepted render_number (VObj icon) = true /\
  exists options' m icon',
    getMarker SymbolPath_enum render_number 0 options [] = Normal (options', m) /\
    get_own (values m) "icon" = VObj icon' /\
    (forall key v, key = "anchor" \/ key = "origin" ->
       lookup icon key = Some v ->
       exists a0 a1, get_index v 0 = Normal a0 /\ get_index v 1 = Normal a1 /\
                     lookup icon' key = Some (VPoint a0 a1)) /\
    (forall key v, key = "size" \/ key = "scaledSize" ->
       lookup icon key = Some v ->
       exists a0 a1, get_index v 0 = Normal a0 /\ get_index v 1 = Normal a1 /\
                     lookup icon' key = Some (VSize a0 a1)) /\
    (forall key, coerced_key key = false -> key <> "path" ->
       lookup icon' key = lookup icon key).
Proof.
  repeat (split; [reflexivity|]).
  apply (icon_fields_coerced_whatever_shape SymbolPath_enum render_number 0
           [("icon", VObj [("url", VStr "pin.png"); ("anchor", VArr [VNum 16]);
                           ("scaledSize", VStr "32")])]
           [("url", VStr "pin.png"); ("anchor", VArr [VNum 16]);
            ("scaledSize", VStr "32")] []);
    reflexivity.
Defined.

(** An empty position string is no coordinate, and is never geocoded. *)
Lemma empty_address_is_not_geocoded :
  exists d,
    linkFunc SymbolPath_enum render_number 0 [("position", VStr "")] []
      (VStr "showStoreInfo()") = Normal d /\
    get_own (values (marker d)) "position" = VLatLng 0 0 /\
    trace d = [addObject "markers" 0; observeAttrSetObj 0] /\
    ~ In (getGeoLocation (VStr "")) (trace d) /\
    forall lat lng, resolve lat lng d = d.
Proof.
  eexists. split; [reflexivity|]. split; [reflexivity|]. split; [reflexivity|].
  split; [|reflexivity].
  simpl. intros [H|[H|[]]]; discriminate.
Qed.

Lemma position_decides_geocoding_witness :
  let options := [("position", VStr "the cn tower")] in
  let cb := VStr "showStoreInfo()" in
  link_accepted render_number options = true /\
  exists d,
    linkFunc SymbolPath_enum render_number 0 options [] cb = Normal d /\
    (forall lat lng, get_own options "position" = VLatLng lat lng ->
       get_own (values (marker d)) "position" = VLatLng lat lng /\
       forall os, filter is_getGeoLocation (trace (run os d)) = []) /\
    (forall s, get_own options "position" = VStr s -> s <> "" ->
       get_own (values (marker d)) "position" = VLatLng 0 0 /\
       (forall os, filter is_getGeoLocation (trace (run os d))
                   = [getGeoLocation (VStr s)]) /\
       filter is_evaluate (trace d) = [] /\
       forall lat lng,
         get_own (values (marker (resolve lat lng d))) "position" = VLatLng lat lng /\
         trace (resolve lat lng d)
           = (trace d ++ zoomToIncludeMarkers
                :: (if truthy cb then [evaluate cb] else []))%list /\
         forall os, filter is_evaluate (trace (run os (resolve lat lng d)))
                    = if truthy cb then [evaluate cb] else []).
Proof.
  split; [reflexivity|].
  apply (position_decides_geocoding SymbolPath_enum render_number 0
           [("position", VStr "the cn tower")] [] (VStr "showStoreInfo()")).
  reflexivity.
Defined.

Example cn_tower_end_to_end :
  exists d,
    linkFunc SymbolPath_enum render_number 0 [("position", VStr "the cn tower")] []
      (VStr "showStoreInfo()") = Normal d /\
    trace (destroy (resolve 43.6426 (-79.3871) d))
      = [addObject "markers" 0; getGeoLocation (VStr "the cn tower");
         observeAttrSetObj 0; zoomToIncludeMarkers;
         evaluate (VStr "showStoreInfo()"); deleteObject "markers" 0] /\
    get_own (values (marker (resolve 43.6426 (-79.3871) d))) "position"
      = VLatLng 43.6426 (-79.3871).
Proof. eexists. repeat split. Qed.

Lemma destroy_deletes_marker_once_witness :
  let options := [("position", VStr "the cn tower")] in
  link_accepted render_number options = true /\
  exists d,
    linkFunc SymbolPath_enum render_number 7 options [("click", 1)] VUndefined
      = Normal d /\
    id (marker d) = 7 /\
    forall before later,
      forallb is_resolved before = true -> forallb is_resolved later = true ->
      filter is_deleteObject (trace (run before d)) = [] /\
      filter is_deleteObject (trace (run later (destroy (run before d))))
        = [deleteObject "markers" (id (marker d))].
Proof.
  split; [reflexivity|].
  apply (destroy_deletes_marker_once SymbolPath_enum render_number 7
           [("position", VStr "the cn tower")] [("click", 1)] VUndefined).
  reflexivity.
Defined.

Lemma falsy_label_fields_take_defaults_witness :
  let customlabel := [("text", VStr "A"); ("fillOpacity", VNum 0);
                      ("strokeWeight", VNum 0)] in
  let options := [("position", VLatLng 40.74 (-74.18)); ("icon", VStr "pin.png");
                  ("customlabel", VObj customlabel)] in
  get_own options "customlabel" = VObj customlabel /\
  link_accepted render_number options = true /\
  exists d l,
    linkFunc SymbolPath_enum render_number 0 options [] VUndefined = Normal d /\
    label d = Some l /\
    (truthy (get_own customlabel "color") = false ->
       get_own (label_values l) "color" = VStr "#000000") /\
    (truthy (get_own customlabel "fillColor") = false ->
       get_own (label_values l) "fillColor" = VStr "#ffffff") /\
    (truthy (get_own customlabel "fillOpacity") = false ->
       get_own (label_values l) "fillOpacity" = VNum 1) /\
    (truthy (get_own customlabel "strokeColor") = false ->
       get_own (label_values l) "strokeColor" = VStr "#ffffff") /\
    (truthy (get_own customlabel "strokeWeight") = false ->
       get_own (label_values l) "strokeWeight" = VNum 1) /\
    (get_own customlabel "fillOpacity" = VNum 0 ->
       get_own (label_values l) "fillOpacity" = VNum 1) /\
    (get_own customlabel "strokeWeight" = VNum 0 ->
       get_own (label_values l) "strokeWeight" = VNum 1).
Proof.
  split; [reflexivity|]. split; [reflexivity|].
  apply (falsy_label_fields_take_defaults SymbolPath_enum render_number 0
           [("position", VLatLng 40.74 (-74.18)); ("icon", VStr "pin.png");
            ("customlabel", VObj [("text", VStr "A"); ("fillOpacity", VNum 0);
                                  ("strokeWeight", VNum 0)])]
           [("text", VStr "A"); ("fillOpacity", VNum 0); ("strokeWeight", VNum 0)]
           [] VUndefined);
    reflexivity.
Defined.

Example zero_opacity_is_overridden :
  exists d l,
    linkFunc SymbolPath_enum render_number 0
      [("position", VLatLng 40.74 (-74.18)); ("icon", VStr "pin.png");
       ("customlabel", VObj [("text", VStr "A"); ("fillOpacity", VNum 0);
                             ("strokeWeight", VNum 0)])] [] VUndefined = Normal d /\
    label d = Some l /\
    get_own (label_values l) "fillOpacity" = VNum 1 /\
    get_own (label_values l) "strokeWeight" = VNum 1.
Proof. eexists _, _. repeat split. Qed.

Lemma link_raises_without_icon_witness :
  let options := [("position", VLatLng 40.74 (-74.18));
                  ("customlabel", VObj [("text", VStr "A")])] in
  typeof_undefined (get_own options "customlabel") = false /\
  nullish (get_own options "icon") = true /\
  completes (linkFunc SymbolPath_enum render_number 0 options [] VUndefined) = false /\
  linkFunc SymbolPath_enum render_number 0 options [] VUndefined = Throw TypeError.
Proof.
  split; [reflexivity|]. split; [reflexivity|].
  apply (link_raises_without_icon SymbolPath_enum render_number 0
           [("position", VLatLng 40.74 (-74.18));
            ("customlabel", VObj [("text", VStr "A")])] [] VUndefined);
    reflexivity.
Defined.

Lemma text_only_label_takes_defaults_witness :
  let customlabel := [("text", VStr "A")] in
  let options := [("position", VLatLng 40.74 (-74.18));
                  ("icon", VObj [("path", VStr "CIRCLE"); ("fillColor", VStr "red")]);
                  ("customlabel", VObj customlabel)] in
  get_own options "customlabel" = VObj customlabel /\
  (forall k, k <> "text" -> get_own customlabel k = VUndefined) /\
  link_accepted render_number options = true /\
  exists d l iconFill,
    linkFunc SymbolPath_enum render_number 0 options [] VUndefined = Normal d /\
    label d = Some l /\
    get_field (get_own (values (marker d)) "icon") "fillColor" = Normal iconFill /\
    get_own (label_values l) "text" = get_own customlabel "text" /\
    get_own (label_values l) "color" = VStr "#000000" /\
    get_own (label_values l) "fillColor" = VStr "#ffffff" /\
    get_own (label_values l) "fillOpacity" = VNum 1 /\
    get_own (label_values l) "strokeColor" = VStr "#ffffff" /\
    get_own (label_values l) "strokeWeight" = VNum 1 /\
    (truthy (get_own (values (marker d)) "zIndex") = true ->
       get_own (label_values l) "zIndex" = get_own (values (marker d)) "zIndex") /\
    (truthy (get_own (values (marker d)) "zIndex") = false ->
       get_own (label_values l) "zIndex" = VStr "auto") /\
    (get_own (values (marker d)) "zIndex" = VUndefined ->
       get_own (label_values l) "zIndex" = VStr "auto") /\
    (truthy iconFill = true ->
       get_own (label_values l) "backgroundColor" = iconFill) /\
    (truthy iconFill = false ->
       get_own (label_values l) "backgroundColor" = VStr "transparent").
Proof.
  assert (Honly : forall k, k <> "text" -> get_own [("text", VStr "A")] k = VUndefined).
  { intros k Hk. rewrite get_own_cons.
    destruct (String.eqb_spec "text" k) as [E|_]; [congruence | reflexivity]. }
  split; [reflexivity|]. split; [exact Honly|]. split; [reflexivity|].
  apply (text_only_label_takes_defaults SymbolPath_enum render_number 0
           [("position", VLatLng 40.74 (-74.18));
            ("icon", VObj [("path", VStr "CIRCLE"); ("fillColor", VStr "red")]);
            ("customlabel", VObj [("text", VStr "A")])]
           [("text", VStr "A")] [] VUndefined);
    [reflexivity | exact Honly | reflexivity].
Defined.

(** The same options evaluated: the label of a marker with an icon. *)
Example text_only_label_with_icon :
  exists d l,
    linkFunc SymbolPath_enum render_number 0
      [("position", VLatLng 40.74 (-74.18));
       ("icon", VObj [("path", VStr "CIRCLE"); ("fillColor", VStr "red")]);
       ("customlabel", VObj [("text", VStr "A")])] [] VUndefined = Normal d /\
    label d = Some l /\
    label_values l =
      [("map", VUndefined); ("text", VStr "A"); ("color", VStr "#000000");
       ("fillColor", VStr "#ffffff"); ("fillOpacity", VNum 1);
       ("strokeColor", VStr "#ffffff"); ("strokeWeight", VNum 1);
       ("zIndex", VStr "auto"); ("backgroundColor", VStr "red")].
Proof. eexists _, _. repeat split. Qed.

(* ================================================================== *)
(** * The further properties at concrete options *)

Lemma events_are_registered_once_witness :
  let events := [("click", 1); ("", 2); ("dblclick", 3)] in
  exists options' m,
    getMarker SymbolPath_enum render_number 0 [("title", VStr "CN")] events
      = Normal (options', m) /\
    (forall name,
       filter (named name) (listeners m)
         = match lookup_handler events name with
           | Some h => if String.eqb name "" then [] else [(name, h)]
           | None => []
           end) /\
    (NoDup (map fst events) ->
     forallb (fun p => negb (starts_with_digit (fst p))) events = true ->
       listeners m = filter (fun p => negb (String.eqb (fst p) "")) events).
Proof.
  apply (events_are_registered_once SymbolPath_enum render_number 0
           [("title", VStr "CN")] [("click", 1); ("", 2); ("dblclick", 3)]).
  reflexivity.
Defined.

Lemma other_options_pass_through_witness :
  let options := [("title", VStr "CN"); ("position", VLatLng 43.6426 (-79.3871));
                  ("draggable", VBool true)] in
  exists options' m,
    getMarker SymbolPath_enum render_number 4 options [] = Normal (options', m) /\
    values m = options' /\ id m = 4 /\
    (forall k, k <> "icon" -> k <> "position" -> k <> "zIndex" ->
       get_own options' k = get_own options k) /\
    (instanceof_LatLng (get_own options "position") = true ->
       get_own options' "position" = get_own options "position").
Proof.
  apply (other_options_pass_through SymbolPath_enum render_number 4
           [("title", VStr "CN"); ("position", VLatLng 43.6426 (-79.3871));
            ("draggable", VBool true)] []).
  reflexivity.
Defined.

Lemma canonical_zIndex_wins_witness :
  let options := [("zIndex", VNum 7); ("zindex", VNum 5)] in
  exists options' m,
    getMarker SymbolPath_enum render_number 0 options [] = Normal (options', m) /\
    (typeof_undefined (get_own options "zIndex") = false ->
       get_own (values m) "zIndex" = get_own options "zIndex") /\
    (typeof_undefined (get_own options "zIndex") = true ->
     typeof_undefined (get_own options "zindex") = true ->
       get_own (values m) "zIndex" = VUndefined).
Proof.
  apply (canonical_zIndex_wins SymbolPath_enum render_number 0
           [("zIndex", VNum 7); ("zindex", VNum 5)] []).
  reflexivity.
Defined.

Lemma other_icons_pass_through_witness :
  let options := [("icon", VStr "pin.png")] in
  exists options' m,
    getMarker SymbolPath_enum render_number 0 options [] = Normal (options', m) /\
    get_own (values m) "icon" = get_own options "icon".
Proof.
  apply (other_icons_pass_through SymbolPath_enum render_number 0
           [("icon", VStr "pin.png")] []).
  reflexivity.
Defined.

Lemma path_is_tested_as_a_string_witness :
  let icon := [("path", VArr [VStr "CIRCLE"]); ("scale", VNum 4)] in
  exists options' m icon',
    getMarker SymbolPath_enum render_number 0 [("icon", VObj icon)] []
      = Normal (options', m) /\
    get_own (values m) "icon" = VObj icon' /\
    (forall s, to_string render_number (get_own icon "path") = Normal s ->
       lookup icon' "path"
         = if matches_symbol_name s then Some (get_own SymbolPath_enum s)
           else lookup icon "path") /\
    (forall s, get_own icon "path" = VArr [VStr s] -> matches_symbol_name s = true ->
       lookup icon' "path" = Some (get_own SymbolPath_enum s)) /\
    (lookup icon "path" = None -> lookup icon' "path" = None).
Proof.
  apply (path_is_tested_as_a_string SymbolPath_enum render_number 0
           [("icon", VObj [("path", VArr [VStr "CIRCLE"]); ("scale", VNum 4)])]
           [("path", VArr [VStr "CIRCLE"]); ("scale", VNum 4)] []);
    reflexivity.
Defined.

Example array_path_is_substituted :
  exists m,
    getMarker SymbolPath_enum render_number 0
      [("icon", VObj [("path", VArr [VStr "CIRCLE"]); ("scale", VNum 4)])] []
    = Normal ([("icon", VObj [("path", VNum 0); ("scale", VNum 4)]);
               ("position", VLatLng 0 0)], m).
Proof. eexists. reflexivity. Qed.

Lemma built_values_are_emptied_witness :
  let icon := [("url", VStr "pin.png"); ("anchor", VPoint (VNum 16) (VNum 32));
               ("scaledSize", VSize (VNum 32) (VNum 32))] in
  exists options' m icon',
    getMarker SymbolPath_enum render_number 0 [("icon", VObj icon)] []
      = Normal (options', m) /\
    get_own (values m) "icon" = VObj icon' /\
    (forall key x y, key = "anchor" \/ key = "origin" ->
       lookup icon key = Some (VPoint x y) ->
       lookup icon' key = Some (VPoint VUndefined VUndefined)) /\
    (forall key w h, key = "size" \/ key = "scaledSize" ->
       lookup icon key = Some (VSize w h) ->
       lookup icon' key = Some (VSize VUndefined VUndefined)).
Proof.
  apply (built_values_are_emptied SymbolPath_enum render_number 0
           [("icon", VObj [("url", VStr "pin.png");
                           ("anchor", VPoint (VNum 16) (VNum 32));
                           ("scaledSize", VSize (VNum 32) (VNum 32))])]
           [("url", VStr "pin.png"); ("anchor", VPoint (VNum 16) (VNum 32));
            ("scaledSize", VSize (VNum 32) (VNum 32))] []);
    reflexivity.
Defined.

Example null_anchor_raises :
  getMarker SymbolPath_enum render_number 0
    [("icon", VObj [("url", VStr "pin.png"); ("anchor", VNull)])] []
  = Throw TypeError.
Proof. reflexivity. Qed.

Example null_customlabel_raises :
  linkFunc SymbolPath_enum render_number 0
    [("icon", VStr "pin.png"); ("customlabel", VNull)] [] VUndefined
  = Throw TypeError.
Proof. reflexivity. Qed.

Lemma marker_is_added_once_witness :
  exists d,
    linkFunc SymbolPath_enum render_number 3 [("position", VStr "the cn tower")]
      [("click", 1)] (VStr "showStoreInfo()") = Normal d /\
    forall os,
      hd_error (trace (run os d)) = Some (addObject "markers" 3) /\
      filter is_addObject (trace (run os d)) = [addObject "markers" 3] /\
      filter is_observeAttrSetObj (trace (run os d)) = [observeAttrSetObj 3].
Proof.
  apply (marker_is_added_once SymbolPath_enum render_number 3
           [("position", VStr "the cn tower")] [("click", 1)]
           (VStr "showStoreInfo()")).
  reflexivity.
Defined.

Lemma falsy_position_stays_at_origin_witness :
  exists d,
    linkFunc SymbolPath_enum render_number 0 [("position", VNum 0)] [] VUndefined
      = Normal d /\
    forall os,
      get_own (values (marker (run os d))) "position" = VLatLng 0 0 /\
      filter is_getGeoLocation (trace (run os d)) = [].
Proof.
  apply (falsy_position_stays_at_origin SymbolPath_enum render_number 0
           [("position", VNum 0)] [] VUndefined);
    reflexivity.
Defined.

Lemma any_truthy_position_is_geocoded_witness :
  let options := [("position", VNum 5)] in
  exists d,
    linkFunc SymbolPath_enum render_number 0 options [] VUndefined = Normal d /\
    get_own (values (marker d)) "position" = VLatLng 0 0 /\
    pending d = Some (get_own options "position") /\
    forall os, filter is_getGeoLocation (trace (run os d))
               = [getGeoLocation (get_own options "position")].
Proof.
  apply (any_truthy_position_is_geocoded SymbolPath_enum render_number 0
           [("position", VNum 5)] [] VUndefined);
    reflexivity.
Defined.

Lemma resolution_outlives_destruction_witness :
  let cb := VStr "showStoreInfo()" in
  exists d,
    linkFunc SymbolPath_enum render_number 0 [("position", VStr "the cn tower")] [] cb
      = Normal d /\
    get_own (values (marker (resolve 43.6426 (-79.3871) (destroy d)))) "position"
      = VLatLng 43.6426 (-79.3871) /\
    trace (resolve 43.6426 (-79.3871) (destroy d))
      = (trace d ++ [deleteObject "markers" 0; zoomToIncludeMarkers]
           ++ (if truthy cb then [evaluate cb] else []))%list.
Proof.
  apply (resolution_outlives_destruction SymbolPath_enum render_number 0
           [("position", VStr "the cn tower")] [] (VStr "showStoreInfo()")
           43.6426 (-79.3871));
    reflexivity.
Defined.

Lemma marker_always_has_a_coordinate_witness :
  exists d,
    linkFunc SymbolPath_enum render_number 2
      [("position", VStr "the cn tower"); ("title", VStr "CN")] [("click", 1)]
      VUndefined = Normal d /\
    forall os,
      id (marker (run os d)) = 2 /\
      listeners (marker (run os d)) = listeners (marker d) /\
      label (run os d) = label d /\
      instanceof_LatLng (get_own (values (marker (run os d))) "position") = true /\
      forall k, k <> "position" ->
        get_own (values (marker (run os d))) k = get_own (values (marker d)) k.
Proof.
  apply (marker_always_has_a_coordinate SymbolPath_enum render_number 2
           [("position", VStr "the cn tower"); ("title", VStr "CN")] [("click", 1)]
           VUndefined).
  reflexivity.
Defined.

Lemma truthy_label_fields_pass_through_witness :
  let customlabel := [("text", VStr "A"); ("color", VStr "#ff0000");
                      ("fillOpacity", VNum 0.5)] in
  exists d l,
    linkFunc SymbolPath_enum render_number 6
      [("icon", VStr "pin.png"); ("customlabel", VObj customlabel)] [] VUndefined
      = Normal d /\ label d = Some l /\
    label_marker l = 6 /\ position_bound_to l = 6 /\
    get_own (label_values l) "text" = get_own customlabel "text" /\
    forall k,
      In k ["color"; "fillColor"; "fillOpacity"; "strokeColor"; "strokeWeight"] ->
      truthy (get_own customlabel k) = true ->
      get_own (label_values l) k = get_own customlabel k.
Proof.
  apply (truthy_label_fields_pass_through SymbolPath_enum render_number 6
           [("icon", VStr "pin.png");
            ("customlabel", VObj [("text", VStr "A"); ("color", VStr "#ff0000");
                                  ("fillOpacity", VNum 0.5)])]
           [("text", VStr "A"); ("color", VStr "#ff0000"); ("fillOpacity", VNum 0.5)]
           [] VUndefined);
    reflexivity.
Defined.

Lemma label_click_is_a_marker_click_witness :
  let events := [("dblclick", 3); ("click", 1)] in
  exists d,
    linkFunc SymbolPath_enum render_number 0
      [("icon", VStr "pin.png"); ("customlabel", VObj [("text", VStr "A")])]
      events VUndefined = Normal d /\
    forall os,
      click_label (run os d)
        = match lookup_handler events "click" with
          | Some h => [h]
          | None => []
          end.
Proof.
  apply (label_click_is_a_marker_click SymbolPath_enum render_number 0
           [("icon", VStr "pin.png"); ("customlabel", VObj [("text", VStr "A")])]
           [("dblclick", 3); ("click", 1)] VUndefined).
  reflexivity.
Defined.

Lemma label_is_drawn_where_the_marker_is_witness :
  let options := [("position", VStr "the cn tower"); ("icon", VStr "pin.png");
                  ("customlabel", VObj [("text", VStr "A")])] in
  exists d,
    linkFunc SymbolPath_enum render_number 0 options [] VUndefined = Normal d /\
    (forall lat lng, get_own options "position" = VLatLng lat lng ->
       forall os proj o,
         draw_label render_number proj (run os d) o
           = draw render_number proj (VLatLng lat lng) o) /\
    (instanceof_LatLng (get_own options "position") = false ->
       forall proj o, draw_label render_number proj d o
                      = draw render_number proj (VLatLng 0 0) o) /\
    (instanceof_LatLng (get_own options "position") = false ->
     truthy (get_own options "position") = true ->
       forall lat lng os proj o,
         draw_label render_number proj (run os (resolve lat lng d)) o
           = draw render_number proj (VLatLng lat lng) o).
Proof.
  apply (label_is_drawn_where_the_marker_is SymbolPath_enum render_number 0
           [("position", VStr "the cn tower"); ("icon", VStr "pin.png");
            ("customlabel", VObj [("text", VStr "A")])] [] VUndefined).
  reflexivity.
Defined.

Lemma listeners_are_balanced_witness :
  let l := {| label_values := [("text", VStr "A")]; label_marker := 0;
              position_bound_to := 0 |} in
  let cs := [call_onAdd; call_draw origin_pixel (VLatLng 0 0); call_onRemove; call_onAdd] in
  match overlay_run render_number cs (construct l) with
  | Normal o =>
      length (registered o) + 3 * length (filter is_onRemove cs)
        = 3 * length (filter is_onAdd cs) /\
      (length (filter is_onAdd cs) = length (filter is_onRemove cs) ->
         registered o = [])
  | Throw _ => False
  end.
Proof.
  intros l cs.
  destruct (overlay_run render_number cs (construct l)) as [o|e] eqn:E.
  - exact (listeners_are_balanced render_number l cs o E).
  - discriminate E.
Defined.

(** An [onAdd] on a label that is attached already: its listeners stay. *)
Example second_onAdd_leaves_listeners :
  let l := {| label_values := [("text", VStr "A")]; label_marker := 0;
              position_bound_to := 0 |} in
  exists o,
    overlay_run render_number [call_onAdd; call_onAdd; call_onRemove]
      (construct l) = Normal o /\
    parentNode (div o) = None /\
    registered o = three_listeners 0.
Proof. eexists. repeat split. Qed.

Lemma onRemove_needs_a_pane_witness :
  let l := {| label_values := [("text", VStr "A")]; label_marker := 0;
              position_bound_to := 0 |} in
  let cs := [call_onAdd; call_onRemove] in
  match overlay_run render_number cs (construct l) with
  | Normal o =>
      (onRemove o = Throw TypeError <-> parentNode (div o) = None) /\
      (forall o', onRemove o = Normal o' -> onRemove o' = Throw TypeError) /\
      onRemove (construct l) = Throw TypeError
  | Throw _ => False
  end.
Proof.
  intros l cs.
  destruct (overlay_run render_number cs (construct l)) as [o|e] eqn:E.
  - exact (onRemove_needs_a_pane render_number l cs o E).
  - discriminate E.
Defined.

Lemma onAdd_onRemove_round_trip_witness :
  let l := {| label_values := [("text", VStr "A")]; label_marker := 0;
              position_bound_to := 0 |} in
  let cs := [call_onAdd; call_draw origin_pixel (VLatLng 0 0); call_onRemove] in
  match overlay_run render_number cs (construct l) with
  | Normal o =>
      exists o',
        onRemove (onAdd o) = Normal o' /\
        registered o' = registered o /\
        parentNode (div o') = None /\
        holds (div o') = holds (div o) /\
        style (div o') = style (div o) /\
        settings o' = settings o
  | Throw _ => False
  end.
Proof.
  intros l cs.
  destruct (overlay_run render_number cs (construct l)) as [o|e] eqn:E.
  - exact (onAdd_onRemove_round_trip render_number l cs o E).
  - discriminate E.
Defined.

Lemma label_without_text_is_never_drawn_witness :
  exists d l,
    linkFunc SymbolPath_enum render_number 0
      [("icon", VStr "pin.png"); ("customlabel", VObj [("color", VStr "#ff0000")])]
      [] VUndefined = Normal d /\ label d = Some l /\
    forall cs o proj position,
      overlay_run render_number cs (construct l) = Normal o ->
      draw render_number proj position o = Throw TypeError.
Proof.
  apply (label_without_text_is_never_drawn SymbolPath_enum render_number 0
           [("icon", VStr "pin.png"); ("customlabel", VObj [("color", VStr "#ff0000")])]
           [("color", VStr "#ff0000")] [] VUndefined);
    reflexivity.
Defined.

Lemma draw_writes_the_container_witness :
  let l := {| label_values := [("text", VStr "A"); ("color", VStr "#000000");
                               ("fillColor", VStr "#ffffff");
                               ("backgroundColor", VStr "red")];
              label_marker := 0; position_bound_to := 0 |} in
  let o := onAdd (construct l) in
  exists o',
    draw render_number origin_pixel (VLatLng 0 0) o = Normal o' /\
    get_own (style (div o')) "left" = VStr ("0" ++ "px") /\
    get_own (style (div o')) "top" = VStr ("0" ++ "px") /\
    get_own (style (div o')) "display" = VStr "block" /\
    get_own (style (div o')) "z-index" = get_own (label_values (settings o)) "zIndex" /\
    get_own (style (div o')) "background-color"
      = get_own (label_values (settings o)) "fillColor" /\
    get_own (style (div o')) "color" = get_own (label_values (settings o)) "color" /\
    get_own (style (div o')) "border-color"
      = get_own (label_values (settings o)) "color" /\
    get_own (style (div o')) "opacity"
      = get_own (label_values (settings o)) "fillOpacity" /\
    get_own (style (div o')) "stroke"
      = get_own (label_values (settings o)) "strokeColor" /\
    get_own (style (div o')) "stroke-width"
      = get_own (label_values (settings o)) "strokeWeight" /\
    holds (div o') = markup "A" /\
    (forall k, ~ In k drawn_properties ->
       get_own (style (div o')) k = get_own (style (div o)) k) /\
    parentNode (div o') = parentNode (div o) /\
    registered o' = registered o /\
    this_listeners o' = this_listeners o /\
    settings o' = settings o.
Proof.
  intros l o.
  apply (draw_writes_the_container render_number
           (fun position => VPoint (VNum 0) (VNum 0)) (VLatLng 0 0) o
           (VNum 0) (VNum 0) "0" "0" "A");
    reflexivity.
Defined.

Lemma backgroundColor_is_never_drawn_witness :
  let l1 := {| label_values := [("text", VStr "A"); ("backgroundColor", VStr "red")];
               label_marker := 0; position_bound_to := 0 |} in
  let l2 := {| label_values := [("text", VStr "A");
                                ("backgroundColor", VStr "transparent")];
               label_marker := 0; position_bound_to := 0 |} in
  match draw render_number origin_pixel (VLatLng 0 0) (construct l1),
        draw render_number origin_pixel (VLatLng 0 0) (construct l2) with
  | Normal a, Normal b => div a = div b
  | Throw _, Throw _ => True
  | _, _ => False
  end.
Proof.
  intros l1 l2.
  apply (backgroundColor_is_never_drawn render_number origin_pixel (VLatLng 0 0)
           (construct l1) (construct l2)).
  - intros k Hk. simpl. rewrite !get_own_cons.
    destruct (String.eqb "text" k); [reflexivity|].
    destruct (String.eqb_spec "backgroundColor" k) as [E|_];
      [congruence | reflexivity].
  - reflexivity.
Defined.

Lemma draw_twice_is_draw_once_witness :
  let l := {| label_values := [("text", VStr "A"); ("color", VStr "#000000")];
              label_marker := 0; position_bound_to := 0 |} in
  exists o',
    draw render_number origin_pixel (VLatLng 0 0) (construct l) = Normal o' /\
    draw render_number origin_pixel (VLatLng 0 0) o' = Normal o'.
Proof.
  intros l. eexists. split; [reflexivity|].
  apply (draw_twice_is_draw_once render_number origin_pixel (VLatLng 0 0) (construct l)).
  reflexivity.
Defined.

Lemma unlinked_marker_is_never_deleted_witness :
  let options := [("position", VStr "the cn tower");
                  ("customlabel", VObj [("text", VStr "A")])] in
  typeof_undefined (get_own options "customlabel") = false /\
  nullish (get_own options "icon") = true /\
  exists d,
    link_outcome SymbolPath_enum render_number 0 options [] VUndefined
      = Normal {| element := d; raised := Some TypeError |} /\
    linkFunc SymbolPath_enum render_number 0 options [] VUndefined = Throw TypeError /\
    id (marker d) = 0 /\
    trace d = [addObject "markers" 0] /\
    forall later,
      trace (run later d) = [addObject "markers" 0] /\
      filter is_deleteObject (trace (run later d)) = [].
Proof.
  split; [reflexivity|]. split; [reflexivity|].
  apply (unlinked_marker_is_never_deleted SymbolPath_enum render_number 0
           [("position", VStr "the cn tower");
            ("customlabel", VObj [("text", VStr "A")])] [] VUndefined);
    reflexivity.
Defined.
